(** * DPG integrators and the GetComponent numproc: a shallow embedding

    The development follows two source files of the DPG add-on for NGSolve:
    - [integrators/dpgintegrators.hpp]: the class [DPGintegrator], the eight
      paired-space bilinear form integrators derived from it, and the source
      integrator [NeumannVolume];
    - the numproc [NumProcGetComponent] (registered as "getcomp").

    C++ [double] values are IEEE 754 binary64 numbers, taken from the
    specification of floating-point numbers of the standard library
    ([spec_float], precision 53, [emax] 1024).  C++ [int] is a 32-bit two's
    complement integer carried by [Z].  Exceptions and undefined accesses
    are an explicit error outcome; [cout] and the grid functions of the PDE
    are threaded as state. *)

From Stdlib Require Import ZArith Lia List String Bool.
From Stdlib Require Import Floats.SpecFloat.
From stdpp Require Import base option list gmap strings.

Set Warnings "-register-all".

(** ** Numbers *)

Module Numeric.

Local Open Scope Z_scope.

(** [double]: binary64. *)
Definition double : Type := spec_float.

Definition prec : Z := 53.
Definition emax : Z := 1024.

(** [std::complex<double>] with its accessors [real()] and [imag()]. *)
Record Complex : Type := mkComplex { real : double; imag : double }.

Definition INT_MIN : Z := - 2 ^ 31.
Definition INT_MAX : Z := 2 ^ 31 - 1.

(** Two's complement wrap-around of 32-bit [int] arithmetic. *)
Definition wrap_int (z : Z) : Z := (z + 2 ^ 31) mod 2 ^ 32 - 2 ^ 31.

Definition int_add (a b : Z) : Z := wrap_int (a + b).
Definition int_sub (a b : Z) : Z := wrap_int (a - b).

(** Conversion [int -> double]; every 32-bit integer is a binary64 number,
    so the rounding of [binary_normalize] never loses anything here. *)
Definition double_of_int (n : Z) : double :=
  binary_normalize prec emax n 0 false.

(** [double - double]. *)
Definition double_sub (x y : double) : double := SFsub prec emax x y.

(** The integer obtained by discarding the fractional part (rounding
    toward zero); no value for infinities and NaN. *)
Definition double_trunc (x : double) : option Z :=
  match x with
  | S754_zero _ => Some 0
  | S754_finite s m e =>
      Some (cond_Zopp s
              (if 0 <=? e then Zpos m * 2 ^ e else Zpos m / 2 ^ (- e)))
  | S754_infinity _ => None
  | S754_nan => None
  end.

(** The conversion [int(x)] of a [double]: truncation toward zero, and
    undefined when the truncated value is not an [int] ([None]). *)
Definition int_of_double (x : double) : option Z :=
  match double_trunc x with
  | Some z => if (INT_MIN <=? z) && (z <=? INT_MAX) then Some z else None
  | None => None
  end.

End Numeric.

Import Numeric.

(** ** The host framework, as far as the two files use it *)

Module Host.

(** What the program writes to [cout]. *)
Inductive out_item : Type :=
| OutStr (s : string)
| OutInt (n : Z)
| OutEndl
| OutFlush.

(** Abnormal outcomes: an index outside an [Array] or a vector view
    (undefined in C++, a range exception in checked builds), a
    [double -> int] conversion without a value, an exception thrown by the
    host, and a loop that was not given enough steps. *)
Inductive exn : Type :=
| RangeError (i size : Z)
| UndefinedConversion
| Exception (what : string)
| OutOfFuel.

Inductive Result (A : Type) : Type :=
| Ok (a : A)
| Raise (e : exn).
Arguments Ok {A} a.
Arguments Raise {A} e.

(** [BaseVector]: the entries of a grid function, real or complex. *)
Inductive BaseVector : Type :=
| RealVector (entries : list double)
| ComplexVector (entries : list Complex).

(** [GridFunction]: the class name of its finite element space, its vector
    and, for a compound space, its component grid functions.  In the host
    the vector of a compound grid function and the vectors of its components
    share their memory; here they are separate values, and what is proved
    about [Do] is stated for a destination that is not the compound grid
    function. *)
Inductive GridFunction : Type :=
| MkGridFunction (classname : string) (vec : BaseVector)
                 (components : list GridFunction).

Definition GetClassName (g : GridFunction) : string :=
  match g with MkGridFunction c _ _ => c end.
Definition GetVector (g : GridFunction) : BaseVector :=
  match g with MkGridFunction _ v _ => v end.
Definition Components (g : GridFunction) : list GridFunction :=
  match g with MkGridFunction _ _ cs => cs end.
Definition SetVector (g : GridFunction) (v : BaseVector) : GridFunction :=
  match g with MkGridFunction c _ cs => MkGridFunction c v cs end.

(** The state the program acts on: the output stream and the grid
    functions of the PDE, by name.  A [shared_ptr<GridFunction>] is the
    name of the grid function it points to. *)
Record World : Type := mkWorld {
  cout : list out_item;
  gridfunctions : gmap string GridFunction
}.

(** State and error monad. *)
Definition M (A : Type) : Type := World -> Result (A * World).

Definition ret {A} (a : A) : M A := fun w => Ok (a, w).

Definition bind {A B} (m : M A) (k : A -> M B) : M B :=
  fun w => match m w with
           | Ok (a, w') => k a w'
           | Raise e => Raise e
           end.

Definition raise {A} (e : exn) : M A := fun _ => Raise e.

Definition lift {A} (r : Result A) : M A :=
  fun w => match r with Ok a => Ok (a, w) | Raise e => Raise e end.

Definition print (items : list out_item) : M unit :=
  fun w => Ok (tt, mkWorld (cout w ++ items) (gridfunctions w)).

(** [Array<T>::operator[]]. *)
Definition Array_get {T} (a : list T) (i : nat) : Result T :=
  match a !! i with
  | Some x => Ok x
  | None => Raise (RangeError (Z.of_nat i) (Z.of_nat (length a)))
  end.

(** The conversion [int(x)] as a step of the program. *)
Definition to_int (x : double) : Result Z :=
  match int_of_double x with
  | Some z => Ok z
  | None => Raise UndefinedConversion
  end.

(** [CoefficientFunction]: the three virtual methods the integrators call.
    [IP] is the type of mapped integration points. *)
Record CoefficientFunction (IP : Type) : Type := mkCoefficientFunction {
  IsComplex : bool;
  EvaluateConst : Result double;
  EvaluateComplex : IP -> Result Complex
}.
Arguments mkCoefficientFunction {IP} _ _ _.
Arguments IsComplex {IP} _.
Arguments EvaluateConst {IP} _.
Arguments EvaluateComplex {IP} _ _.

(** The host's real constant: constant evaluation gives the value, and the
    complex evaluation inherited from the base class gives the same value
    with imaginary part zero. *)
Definition ConstantCoefficientFunction {IP} (val : double)
  : CoefficientFunction IP :=
  mkCoefficientFunction false (Ok val)
    (fun _ => Ok (mkComplex val (S754_zero false))).

(** The host's complex constant: it has the complex evaluation only, the
    constant evaluation of the base class throws. *)
Definition ConstantCoefficientFunctionC {IP} (val : Complex)
  : CoefficientFunction IP :=
  mkCoefficientFunction true
    (Raise (Exception "EvaluateConst called for non-const coefficient function"))
    (fun _ => Ok val).

(** [xbool], the three-valued answer of [IsSymmetric]. *)
Inductive xbool : Type := xfalse | xtrue | xmaybe.

Definition xbool_of_bool (b : bool) : xbool := if b then xtrue else xfalse.

(** [VorB]. *)
Inductive VorB : Type := VOL | BND.

(** [Flags]: numeric, define and string flags by name. *)
Record Flags : Type := mkFlags {
  numflags : gmap string double;
  defflags : gset string;
  strflags : gmap string string
}.

Definition GetNumFlag (flags : Flags) (name : string) (def : double) : double :=
  default def (numflags flags !! name).

Definition GetDefineFlag (flags : Flags) (name : string) : bool :=
  bool_decide (name ∈ defflags flags).

(** With the default [NULL] a missing string flag reads as the empty
    string. *)
Definition GetStringFlag (flags : Flags) (name : string)
           (def : option string) : string :=
  match strflags flags !! name with
  | Some s => s
  | None => default EmptyString def
  end.

(** [PDE::GetGridFunction]: the grid function of that name, an exception
    when there is none. *)
Definition GetGridFunction (name : string) : M string :=
  fun w => match gridfunctions w !! name with
           | Some _ => Ok (name, w)
           | None => Raise (Exception "GridFunction not defined")
           end.

(** Following a [shared_ptr<GridFunction>]. *)
Definition deref (gf : string) : M GridFunction :=
  fun w => match gridfunctions w !! gf with
           | Some g => Ok (g, w)
           | None => Raise (Exception "GridFunction not defined")
           end.

(** Writing through a [shared_ptr<GridFunction>]. *)
Definition store (gf : string) (g : GridFunction) : M unit :=
  fun w => Ok (tt, mkWorld (cout w) (<[gf:=g]> (gridfunctions w))).

(** [GridFunction::GetComponent]: indexing the array of components. *)
Definition GetComponent (g : GridFunction) (compound_comp : Z)
  : Result GridFunction :=
  if (0 <=? compound_comp)%Z then
    Array_get (Components g) (Z.to_nat compound_comp)
  else Raise (RangeError compound_comp (Z.of_nat (length (Components g)))).

(** [FV<double>()]: the vector seen as a flat array of [double]; a complex
    entry occupies two consecutive places, real part first. *)
Definition flatten (l : list Complex) : list double :=
  flat_map (fun c => [real c; imag c]) l.

Fixpoint unflatten (l : list double) : list Complex :=
  match l with
  | a :: b :: l' => mkComplex a b :: unflatten l'
  | _ => []
  end.

Definition FVDouble (v : BaseVector) : list double :=
  match v with
  | RealVector l => l
  | ComplexVector l => flatten l
  end.

(** Writing place [i] of the [FV<double>()] view. *)
Definition FVDouble_set (v : BaseVector) (i : nat) (x : double)
  : Result BaseVector :=
  match v with
  | RealVector l =>
      if decide (i < length l)%nat then Ok (RealVector (<[i:=x]> l))
      else Raise (RangeError (Z.of_nat i) (Z.of_nat (length l)))
  | ComplexVector l =>
      match l !! (i / 2)%nat with
      | Some c =>
          Ok (ComplexVector
                (<[(i / 2)%nat :=
                    if Nat.even i then mkComplex x (imag c)
                    else mkComplex (real c) x]> l))
      | None => Raise (RangeError (Z.of_nat i) (Z.of_nat (2 * length l)))
      end
  end.

(** [FV<Complex>()]: the complex entries; the host throws for a real
    vector. *)
Definition FVComplex (v : BaseVector) : Result (list Complex) :=
  match v with
  | ComplexVector l => Ok l
  | RealVector _ => Raise (Exception "FVComplex called for real vector")
  end.

(** Reading place [i] of a flat view. *)
Definition FlatVector_get {T} (fv : list T) (i : nat) : Result T :=
  Array_get fv i.

(** Modelled from the spec: the host's vector assignment
    [BaseVector::operator=] is not part of the sources; following 4.6 and
    the testable properties it copies the source into the destination entry
    by entry, without changing a value.  The copy goes through the flat
    views, which must have the same size. *)
Definition BaseVector_assign (dst src : BaseVector) : Result BaseVector :=
  if decide (length (FVDouble dst) = length (FVDouble src)) then
    match dst with
    | RealVector _ => Ok (RealVector (FVDouble src))
    | ComplexVector _ => Ok (ComplexVector (unflatten (FVDouble src)))
    end
  else Raise (Exception "vector sizes do not match").

(** [for (int i = start; cond(i); i++) body(i)], with a bound on the
    number of times the condition is evaluated. *)
Fixpoint for_loop (fuel : nat) (cond : nat -> M bool) (body : nat -> M unit)
         (i : nat) : M unit :=
  match fuel with
  | O => raise OutOfFuel
  | S fuel' =>
      bind (cond i) (fun b =>
        if b then bind (body i) (fun _ => for_loop fuel' cond body (S i))
        else ret tt)
  end.

End Host.

Import Host.

Notation "x <- c1 ;; c2" := (bind c1 (fun x => c2))
(at level 100, c1 at next level, right associativity).
Notation "c1 ;;; c2" := (bind c1 (fun _ => c2))
(at level 100, right associativity).

(** ** [integrators/dpgintegrators.hpp] *)

Module DPG.

Section Integrators.

(** [BaseMappedIntegrationPoint] is a type of the host; the constructor of
    [DPGintegrator] declares a point of that type without initialising it and
    passes it to [EvaluateComplex], so the point is an argument here. *)
Context {BaseMappedIntegrationPoint : Type}.

Local Abbreviation CoefficientFunction :=
  (Host.CoefficientFunction BaseMappedIntegrationPoint).

(** The base class [DPGintegrator]. *)
Record DPGintegrator : Type := mkDPGintegrator {
  comp1 : CoefficientFunction;
  comp2 : CoefficientFunction;
  ind1 : Z;
  ind2 : Z
}.

(** The constructor [DPGintegrator::DPGintegrator(coeffs)]: the initialisers
    [comp1(coeffs[0])] and [comp2(coeffs[1])], then the body. *)
Definition new_DPGintegrator (ip : BaseMappedIntegrationPoint)
           (coeffs : list CoefficientFunction) : M DPGintegrator :=
  c1 <- lift (Array_get coeffs 0) ;;
  c2 <- lift (Array_get coeffs 1) ;;
  if IsComplex c1 then
    z1 <- lift (EvaluateComplex c1 ip) ;;
    n1 <- lift (to_int (real z1)) ;;
    z2 <- lift (EvaluateComplex c2 ip) ;;
    n2 <- lift (to_int (real z2)) ;;
    ret (mkDPGintegrator c1 c2 (int_sub n1 1) (int_sub n2 1))
  else
    x1 <- lift (EvaluateConst c1) ;;
    n1 <- lift (to_int x1) ;;
    x2 <- lift (EvaluateConst c2) ;;
    n2 <- lift (to_int x2) ;;
    ret (mkDPGintegrator c1 c2 (int_sub n1 1) (int_sub n2 1)).

Definition GetInd1 (this : DPGintegrator) : Z := ind1 this.
Definition GetInd2 (this : DPGintegrator) : Z := ind2 this.

(** The eight class templates derived from [DPGintegrator].  They have the
    same members (the base class and one more coefficient, named [coeff_a],
    [coeff_d] or [coeff_c]) and the same constructor, and differ in the
    answers of their virtual methods; one record with the class as a tag and
    the template argument [D] stands for all of them. *)
Inductive Variant : Type :=
| GradGrad
| FluxTrace
| EyeEye
| TraceTrace
| FluxFluxBoundary
| TraceTraceBoundary
| RobinVolume
| FluxTraceBoundary.

Record Integrator : Type := mkIntegrator {
  variant : Variant;
  D : Z;
  base : DPGintegrator;
  coeff : CoefficientFunction
}.

Definition Name_of (v : Variant) : string :=
  match v with
  | GradGrad => "GradGrad"
  | FluxTrace => "FluxTrace"
  | EyeEye => "EyeEye"
  | TraceTrace => "TraceTrace"
  | FluxFluxBoundary => "FluxFluxBoundary"
  | TraceTraceBoundary => "TraceTraceBoundary"
  | RobinVolume => "RobinVolume"
  | FluxTraceBoundary => "FluxTraceBoundary"
  end.

Definition Name (this : Integrator) : string := Name_of (variant this).

(** [IsSymmetric() { return !coeff->IsComplex(); }], in all eight classes. *)
Definition IsSymmetric (this : Integrator) : xbool :=
  xbool_of_bool (negb (IsComplex (coeff this))).

Definition BoundaryForm (this : Integrator) : bool :=
  match variant this with
  | GradGrad | FluxTrace | EyeEye | TraceTrace => false
  | FluxFluxBoundary | TraceTraceBoundary => true
  | RobinVolume => false
  | FluxTraceBoundary => true
  end.

Definition VB (this : Integrator) : VorB :=
  match variant this with
  | GradGrad | FluxTrace | EyeEye | TraceTrace => VOL
  | FluxFluxBoundary | TraceTraceBoundary => BND
  | RobinVolume => VOL
  | FluxTraceBoundary => BND
  end.

(** [DimElement] and [DimSpace] are overridden by the last four classes
    only; the first four inherit the host's, which is not in the sources
    ([None]).  [D] is a template argument, [D-1] a constant expression. *)
Definition DimElement (this : Integrator) : option Z :=
  match variant this with
  | GradGrad | FluxTrace | EyeEye | TraceTrace => None
  | FluxFluxBoundary | TraceTraceBoundary => Some (D this - 1)%Z
  | RobinVolume => Some (D this)
  | FluxTraceBoundary => Some (D this - 1)%Z
  end.

Definition DimSpace (this : Integrator) : option Z :=
  match variant this with
  | GradGrad | FluxTrace | EyeEye | TraceTrace => None
  | FluxFluxBoundary | TraceTraceBoundary | RobinVolume | FluxTraceBoundary =>
      Some (D this)
  end.

(** The line a constructor of a derived class writes to [cout]. *)
Definition greeting (name : string) (i j : Z) : list out_item :=
  [OutStr "Using DPG integrator "; OutStr name;
   OutStr " with components "; OutInt (int_add i 1);
   OutStr " and "; OutInt (int_add j 1); OutEndl].

(** The constructor of a derived class: the base class, the initialiser
    [coeff(coeffs[2])], and the line written to [cout]. *)
Definition new_Integrator (v : Variant) (d : Z) (ip : BaseMappedIntegrationPoint)
           (coeffs : list CoefficientFunction) : M Integrator :=
  b <- new_DPGintegrator ip coeffs ;;
  c <- lift (Array_get coeffs 2) ;;
  let this := mkIntegrator v d b c in
  print (greeting (Name this) (GetInd1 b) (GetInd2 b)) ;;;
  ret this.

(** The source integrator [NeumannVolume<D>], a [LinearFormIntegrator]. *)
Record NeumannVolume : Type := mkNeumannVolume {
  nv_D : Z;
  coeff_index : CoefficientFunction;
  coeff_g : CoefficientFunction;
  coeff_Gx : CoefficientFunction;
  coeff_Gy : CoefficientFunction;
  coeff_Gz : CoefficientFunction;
  indx : Z
}.

Definition NeumannVolume_Name (this : NeumannVolume) : string := "NeumannVolume".
Definition NeumannVolume_DimElement (this : NeumannVolume) : Z := nv_D this.
Definition NeumannVolume_DimSpace (this : NeumannVolume) : Z := nv_D this.
Definition NeumannVolume_BoundaryForm (this : NeumannVolume) : bool := false.
Definition NeumannVolume_VB (this : NeumannVolume) : VorB := VOL.

(** The constructor: the five initialisers [coeffs[0]] to [coeffs[4]],
    whatever [D] is, then the body. *)
Definition new_NeumannVolume (d : Z) (coeffs : list CoefficientFunction)
  : M NeumannVolume :=
  c0 <- lift (Array_get coeffs 0) ;;
  c1 <- lift (Array_get coeffs 1) ;;
  c2 <- lift (Array_get coeffs 2) ;;
  c3 <- lift (Array_get coeffs 3) ;;
  c4 <- lift (Array_get coeffs 4) ;;
  x <- lift (EvaluateConst c0) ;;
  n <- lift (to_int x) ;;
  let this := mkNeumannVolume d c0 c1 c2 c3 c4 (int_sub n 1) in
  print [OutStr "Using DPG source integrator "; OutStr (NeumannVolume_Name this);
         OutStr " on component "; OutInt (int_add (indx this) 1); OutEndl] ;;;
  ret this.

(** The evaluation of one index argument in a given mode: complex point
    evaluation and its real part, or constant evaluation; then the
    conversion to [int] and the decrement. *)
Definition resolve_index_in_mode (complex_mode : bool)
           (ip : BaseMappedIntegrationPoint) (c : CoefficientFunction)
  : Result Z :=
  if complex_mode then
    match EvaluateComplex c ip with
    | Ok z => match to_int (real z) with
              | Ok n => Ok (int_sub n 1)
              | Raise e => Raise e
              end
    | Raise e => Raise e
    end
  else
    match EvaluateConst c with
    | Ok x => match to_int x with
              | Ok n => Ok (int_sub n 1)
              | Raise e => Raise e
              end
    | Raise e => Raise e
    end.

(** The rule of 4.1 of the specification read argument by argument: the
    mode of an argument is complex point evaluation when that argument is
    complex-valued and constant evaluation when it is real-valued. *)
Definition resolve_index_per_argument (ip : BaseMappedIntegrationPoint)
           (c : CoefficientFunction) : Result Z :=
  resolve_index_in_mode (IsComplex c) ip c.

(** The seven classes for which the specification states the symmetry
    flag, and the three boundary classes. *)
Definition symmetry_variants : list Variant :=
  [GradGrad; EyeEye; TraceTrace; FluxFluxBoundary; TraceTraceBoundary;
   RobinVolume; FluxTraceBoundary].

Definition boundary_variants : list Variant :=
  [FluxFluxBoundary; TraceTraceBoundary; FluxTraceBoundary].

End Integrators.

Arguments DPGintegrator : clear implicits.
Arguments Integrator : clear implicits.
Arguments NeumannVolume : clear implicits.

End DPG.

Import DPG.

(** ** The numproc [NumProcGetComponent] *)

Module GetComponent.

Record NumProcGetComponent : Type := mkNumProcGetComponent {
  gf1 : string;
  gf2 : string;
  ind : Z;
  re : bool;
  im : bool
}.

(** The constructor.  [GetNumFlag] gives a [double]; the subtraction is done
    on [double] and its result converted to [int]. *)
Definition new_NumProcGetComponent (flags : Flags) : M NumProcGetComponent :=
  g1 <- GetGridFunction (GetStringFlag flags "compoundgf" None) ;;
  n <- lift (to_int (double_sub (GetNumFlag flags "comp" (double_of_int 1))
                                (double_of_int 1))) ;;
  g2 <- GetGridFunction (GetStringFlag flags "componentgf" None) ;;
  ret (mkNumProcGetComponent g1 g2 n
         (GetDefineFlag flags "re") (GetDefineFlag flags "im")).

(** The condition [i < gf2->GetVector().FV<double>().Size()] of both loops.
    The counter [i] is an [int]; it is a natural number here, vectors of
    [2^31] entries and more are left out. *)
Definition loop_cond (this : NumProcGetComponent) (i : nat) : M bool :=
  g2 <- deref (gf2 this) ;;
  ret (bool_decide (i < length (FVDouble (GetVector g2)))%nat).

(** The body of both loops, [part] being [real] or [imag]:
    [gf2->GetVector().FV<double>()[i] =
       (gf1->GetComponent(ind)->GetVector().FV<Complex>()[i]).part()]. *)
Definition loop_body (part : Complex -> double) (this : NumProcGetComponent)
           (i : nat) : M unit :=
  g1 <- deref (gf1 this) ;;
  comp <- lift (GetComponent g1 (ind this)) ;;
  src <- lift (FVComplex (GetVector comp)) ;;
  c <- lift (FlatVector_get src i) ;;
  g2 <- deref (gf2 this) ;;
  v <- lift (FVDouble_set (GetVector g2) i (part c)) ;;
  store (gf2 this) (SetVector g2 v).

(** The first line [Do] writes. *)
Definition announcement (this : NumProcGetComponent) (classname : string)
  : list out_item :=
  [OutStr "GetComponent "; OutInt (int_add (ind this) 1);
   OutStr ", of type "; OutStr classname; OutFlush].

(** [Do]; [fuel] bounds the number of times a loop condition is evaluated. *)
Definition Do (fuel : nat) (this : NumProcGetComponent) : M unit :=
  g2 <- deref (gf2 this) ;;
  print (announcement this (GetClassName g2)) ;;;
  if re this then
    print [OutStr ", REAL part"; OutEndl] ;;;
    for_loop fuel (loop_cond this) (loop_body real this) 0
  else if im this then
    print [OutStr ", IMAG part"; OutEndl] ;;;
    for_loop fuel (loop_cond this) (loop_body imag this) 0
  else
    print [OutEndl] ;;;
    g1 <- deref (gf1 this) ;;
    comp <- lift (GetComponent g1 (ind this)) ;;
    dst <- deref (gf2 this) ;;
    v <- lift (BaseVector_assign (GetVector dst) (GetVector comp)) ;;
    store (gf2 this) (SetVector dst v).

End GetComponent.

Import GetComponent.

(** ** Concrete values, for examples *)

Module Samples.

Definition zero : double := S754_zero false.

(** The coefficient written [n] in a PDE file. *)
Definition constant (n : Z) : CoefficientFunction unit :=
  ConstantCoefficientFunction (double_of_int n).

(** The complex coefficient [n + 0i]. *)
Definition constantC (n : Z) : CoefficientFunction unit :=
  ConstantCoefficientFunctionC (mkComplex (double_of_int n) zero).

Definition empty_world : World := mkWorld [] ∅.

(** The object that [<variant> 1 2 1] constructs in two dimensions. *)
Definition integrator_1_2 (v : Variant) : Integrator unit :=
  mkIntegrator v 2 (mkDPGintegrator (constant 1) (constant 2) 0 1) (constant 1).

(** A compound grid function "u" with two components of two complex
    entries each; the destination is a grid function "v". *)
Definition entries1 : list Complex :=
  [mkComplex (double_of_int 1) (double_of_int 2);
   mkComplex (double_of_int 3) (double_of_int 4)].

Definition entries2 : list Complex :=
  [mkComplex (double_of_int 5) (double_of_int 6);
   mkComplex (double_of_int 7) (double_of_int 8)].

Definition component1 : GridFunction :=
  MkGridFunction "L2HighOrderFESpace" (ComplexVector entries1) [].

Definition component2 : GridFunction :=
  MkGridFunction "HDivHighOrderFESpace" (ComplexVector entries2) [].

Definition compound : GridFunction :=
  MkGridFunction "CompoundFESpace" (ComplexVector (entries1 ++ entries2))
                 [component1; component2].

Definition others : gmap string GridFunction := {[ "u" := compound ]}.

Definition flags_without_comp : Flags :=
  mkFlags ∅ ∅ (<["compoundgf" := "u"]> (<["componentgf" := "v"]> ∅)).

(** The state in which the destination "v" holds the vector [dst]. *)
Definition world_with (dst : BaseVector) : World :=
  mkWorld [] (<["v" := MkGridFunction "L2HighOrderFESpace" dst []]> others).

Definition world_uv : World := world_with (RealVector [zero; zero]).

(** The numproc [getcomp -compoundgf=u -componentgf=v -comp=1] with the
    given flags [-re] and [-im]. *)
Definition getcomp (re_flag im_flag : bool) : NumProcGetComponent :=
  mkNumProcGetComponent "u" "v" 0 re_flag im_flag.

End Samples.

(** ** Further notions, for the statements below *)

Module Notions.

(** The binary64 number [m / 2^k]. *)
Definition double_of_dyadic (m k : Z) : double :=
  binary_normalize prec emax m (- k) false.


(** The part a numproc with a projection flag takes, and the line it
    writes: those of the real branch when [re] is set, whatever [im] is. *)
Definition projection (this : NumProcGetComponent) : Complex -> double :=
  if re this then real else imag.

Definition projection_line (this : NumProcGetComponent) : list out_item :=
  if re this then [OutStr ", REAL part"; OutEndl]
  else [OutStr ", IMAG part"; OutEndl].

(** Both vectors real, or both complex. *)
Definition same_kind (v v' : BaseVector) : bool :=
  match v, v' with
  | RealVector _, RealVector _ => true
  | ComplexVector _, ComplexVector _ => true
  | _, _ => false
  end.

(** The states [w'] that differ from [w] in the vector of the grid
    function [gf] at most (apart from [cout]), that vector keeping its kind
    and its size: every other grid function is as it was, and [gf] has its
    class name and its components. *)
Definition vector_changed (gf : string) (w w' : World) : Prop :=
  (forall g, g ≠ gf -> gridfunctions w' !! g = gridfunctions w !! g) /\
  exists G v,
    gridfunctions w !! gf = Some G /\
    gridfunctions w' !! gf = Some (SetVector G v) /\
    length (FVDouble v) = length (FVDouble (GetVector G)) /\
    same_kind v (GetVector G) = true.

End Notions.

Import Notions.

(** ** More concrete values *)

Module MoreSamples.

(** The flags [-compoundgf=u -componentgf=v -comp=2 -im]. *)
Definition flags_comp_2 : Flags :=
  mkFlags {[ "comp" := double_of_int 2 ]} {[ "im" ]}
          (<["compoundgf" := "u"]> (<["componentgf" := "v"]> ∅)).

(** A second destination "t" beside "v". *)
Definition world_uvt : World :=
  mkWorld []
    (<["v" := MkGridFunction "L2HighOrderFESpace"
                (RealVector [Samples.zero; Samples.zero]) []]>
       (<["t" := MkGridFunction "L2HighOrderFESpace"
                   (RealVector [Samples.zero; Samples.zero]) []]>
          Samples.others)).

(** The state after [getcomp -re] on [Samples.world_uv]. *)
Definition world_after_re : World :=
  mkWorld [OutStr "GetComponent "; OutInt 1; OutStr ", of type ";
           OutStr "L2HighOrderFESpace"; OutFlush;
           OutStr ", REAL part"; OutEndl]
          (gridfunctions
             (Samples.world_with
                (RealVector [double_of_int 1; double_of_int 3]))).

(** The source integrator [neumannvol 1 1 1 1 1]. *)
Definition neumann_3D : NeumannVolume unit :=
  mkNeumannVolume 3 (Samples.constant 1) (Samples.constant 1)
                  (Samples.constant 1) (Samples.constant 1)
                  (Samples.constant 1) 0.

End MoreSamples.

(** * Properties *)

(** ** Numbers *)

Module NumericFacts.

Local Open Scope Z_scope.

Example double_of_int_1 :
  double_of_int 1 = S754_finite false 4503599627370496 (-52).
Proof. reflexivity. Qed.

Example int_of_double_examples :
  int_of_double (double_of_int 7) = Some 7 /\
  int_of_double (double_of_int (-3)) = Some (-3) /\
  int_of_double (S754_finite false 5 (-1)) = Some 2 /\
  int_of_double (S754_finite true 5 (-1)) = Some (-2) /\
  int_of_double (S754_finite false 1 40) = None.
Proof. repeat split; reflexivity. Qed.

Lemma wrap_int_id (z : Z) : INT_MIN <= z <= INT_MAX -> wrap_int z = z.
Proof.
  unfold INT_MIN, INT_MAX, wrap_int. intros H.
  rewrite Z.mod_small by lia. lia.
Qed.

(** A positive number of [d] binary digits lies between [2^(d-1)] and
    [2^d]. *)
Lemma digits2_pos_bounds (p : positive) :
  2 ^ (Zpos (digits2_pos p) - 1) <= Zpos p < 2 ^ Zpos (digits2_pos p).
Proof.
  induction p as [p IH | p IH |]; simpl digits2_pos.
  - rewrite Pos2Z.inj_succ.
    replace (Z.succ (Z.pos (digits2_pos p)) - 1)
      with (Z.succ (Z.pos (digits2_pos p) - 1)) by lia.
    rewrite !Z.pow_succ_r by lia. lia.
  - rewrite Pos2Z.inj_succ.
    replace (Z.succ (Z.pos (digits2_pos p)) - 1)
      with (Z.succ (Z.pos (digits2_pos p) - 1)) by lia.
    rewrite !Z.pow_succ_r by lia. lia.
  - simpl. lia.
Qed.

Lemma digits2_pos_le (p : positive) (k : Z) :
  0 <= k -> Zpos p < 2 ^ k -> Zpos (digits2_pos p) <= k.
Proof.
  intros Hk Hp.
  destruct (digits2_pos_bounds p) as [Hlo _].
  destruct (Z_le_gt_dec (Zpos (digits2_pos p)) k) as [|Hgt]; [assumption|].
  assert (2 ^ k <= 2 ^ (Zpos (digits2_pos p) - 1))
    by (apply Z.pow_le_mono_r; lia).
  lia.
Qed.

(** Shifting a mantissa to the left by [k] places. *)
Lemma iter_xO_spec (k p : positive) :
  Zpos (Pos.iter xO p k) = Zpos p * 2 ^ Zpos k /\
  digits2_pos (Pos.iter xO p k) = (digits2_pos p + k)%positive.
Proof.
  induction k as [|k IH] using Pos.peano_ind.
  - simpl. split; lia.
  - rewrite Pos.iter_succ. destruct IH as [IH1 IH2]. split.
    + rewrite Pos2Z.inj_xO, IH1, Pos2Z.inj_succ, Z.pow_succ_r by lia. lia.
    + simpl. rewrite IH2. lia.
Qed.

(** Rounding a mantissa of 53 digits changes nothing. *)
Lemma binary_round_aux_exact (s : bool) (m : positive) (e : Z) :
  Zpos (digits2_pos m) = 53 -> -1074 <= e <= 971 ->
  binary_round_aux prec emax s (Zpos m) e loc_Exact = S754_finite s m e.
Proof.
  intros Hd He.
  assert (Hf : fexp prec emax (Zdigits2 (Zpos m) + e) - e = 0).
  { simpl Zdigits2. rewrite Hd. unfold fexp, emin, prec, emax. lia. }
  unfold binary_round_aux, shr_fexp.
  rewrite Hf.
  cbn [shr shr_record_of_loc shr_m loc_of_shr_record round_nearest_even].
  rewrite Hf. cbn [shr shr_record_of_loc shr_m].
  replace (e <=? emax - prec) with true; [reflexivity|].
  symmetry. apply Z.leb_le. unfold emax, prec. lia.
Qed.

(** The binary64 number of a small integer: the integer shifted to 53
    digits. *)
Lemma binary_round_small (s : bool) (p : positive) :
  Zpos p < 2 ^ 52 ->
  binary_round prec emax s p 0 =
  S754_finite s (Pos.iter xO p (Z.to_pos (53 - Zpos (digits2_pos p))))
              (Zpos (digits2_pos p) - 53).
Proof.
  intros Hp.
  assert (Hd : Zpos (digits2_pos p) <= 52) by (apply digits2_pos_le; lia).
  unfold binary_round.
  assert (Hf : fexp prec emax (Zpos (digits2_pos p) + 0)
               = Zpos (digits2_pos p) - 53).
  { unfold fexp, emin, prec, emax. lia. }
  rewrite Hf. unfold shl_align.
  remember (53 - Zpos (digits2_pos p)) as k eqn:Hk.
  destruct k as [|k|k]; try lia.
  replace (Zpos (digits2_pos p) - 53 - 0) with (Zneg k) by lia.
  cbn [Z.to_pos].
  destruct (iter_xO_spec k p) as [Hv Hdig].
  apply binary_round_aux_exact; [rewrite Hdig|]; lia.
Qed.

Lemma double_trunc_of_int (n : Z) :
  - 2 ^ 52 < n < 2 ^ 52 -> double_trunc (double_of_int n) = Some n.
Proof.
  intros Hn. unfold double_of_int, binary_normalize.
  destruct n as [|p|p]; [reflexivity| |].
  all: rewrite binary_round_small by lia.
  all: assert (Hd : Zpos (digits2_pos p) <= 52) by (apply digits2_pos_le; lia).
  all: unfold double_trunc.
  all: replace (0 <=? Zpos (digits2_pos p) - 53) with false
    by (symmetry; apply Z.leb_gt; lia).
  all: remember (53 - Zpos (digits2_pos p)) as k eqn:Hk.
  all: destruct k as [|k|k]; try lia.
  all: cbn [Z.to_pos].
  all: destruct (iter_xO_spec k p) as [Hv _]; rewrite Hv.
  all: replace (- (Zpos (digits2_pos p) - 53)) with (Zpos k) by lia.
  all: rewrite Z.div_mul by (apply Z.pow_nonzero; lia).
  all: reflexivity.
Qed.

(** An [int] converted to [double] and back is the same [int]. *)
Lemma int_of_double_of_int (n : Z) :
  INT_MIN <= n <= INT_MAX -> int_of_double (double_of_int n) = Some n.
Proof.
  intros Hn. unfold int_of_double.
  assert (H52 : - 2 ^ 52 < n < 2 ^ 52) by (unfold INT_MIN, INT_MAX in Hn; lia).
  rewrite (double_trunc_of_int n H52).
  destruct Hn as [Hlo Hhi].
  apply Z.leb_le in Hlo, Hhi. rewrite Hlo, Hhi. reflexivity.
Qed.

Lemma to_int_double_of_int (n : Z) :
  INT_MIN <= n <= INT_MAX -> to_int (double_of_int n) = Ok n.
Proof. intros H. unfold to_int. now rewrite int_of_double_of_int. Qed.

End NumericFacts.

Import NumericFacts.

(** ** The integrators *)

Module DPGFacts.

Local Open Scope Z_scope.

Section Construction.

Context {IP : Type}.
Implicit Types (c : CoefficientFunction IP).
Implicit Types (coeffs : list (CoefficientFunction IP)).

(** The base constructor succeeds exactly when both arguments resolve in the
    mode given by the first one, and leaves the state as it was. *)
Lemma new_DPGintegrator_resolved (ip : IP) coeffs c1 c2 i j w :
  coeffs !! 0%nat = Some c1 -> coeffs !! 1%nat = Some c2 ->
  resolve_index_in_mode (IsComplex c1) ip c1 = Ok i ->
  resolve_index_in_mode (IsComplex c1) ip c2 = Ok j ->
  new_DPGintegrator ip coeffs w = Ok (mkDPGintegrator c1 c2 i j, w).
Proof.
  intros H0 H1 Hi Hj.
  unfold new_DPGintegrator, bind, lift, Array_get. rewrite H0, H1.
  unfold resolve_index_in_mode in Hi, Hj.
  destruct (IsComplex c1).
  - destruct (EvaluateComplex c1 ip) as [z1|]; [|discriminate].
    destruct (to_int (real z1)) as [n1|]; [|discriminate].
    destruct (EvaluateComplex c2 ip) as [z2|]; [|discriminate].
    destruct (to_int (real z2)) as [n2|]; [|discriminate].
    unfold ret. congruence.
  - destruct (EvaluateConst c1) as [z1|]; [|discriminate].
    destruct (to_int z1) as [n1|]; [|discriminate].
    destruct (EvaluateConst c2) as [z2|]; [|discriminate].
    destruct (to_int z2) as [n2|]; [|discriminate].
    unfold ret. congruence.
Qed.

Lemma new_DPGintegrator_inv (ip : IP) coeffs b w w' :
  new_DPGintegrator ip coeffs w = Ok (b, w') ->
  w' = w /\
  coeffs !! 0%nat = Some (comp1 b) /\ coeffs !! 1%nat = Some (comp2 b) /\
  resolve_index_in_mode (IsComplex (comp1 b)) ip (comp1 b) = Ok (ind1 b) /\
  resolve_index_in_mode (IsComplex (comp1 b)) ip (comp2 b) = Ok (ind2 b).
Proof.
  unfold new_DPGintegrator, bind, lift, Array_get.
  destruct (coeffs !! 0%nat) as [c1|]; [|discriminate].
  destruct (coeffs !! 1%nat) as [c2|]; [|discriminate].
  unfold resolve_index_in_mode.
  destruct (IsComplex c1) eqn:Hc.
  - destruct (EvaluateComplex c1 ip) as [z1|] eqn:E1; [|discriminate].
    destruct (to_int (real z1)) as [n1|] eqn:T1; [|discriminate].
    destruct (EvaluateComplex c2 ip) as [z2|] eqn:E2; [|discriminate].
    destruct (to_int (real z2)) as [n2|] eqn:T2; [|discriminate].
    unfold ret. intros [= <- <-]. cbn. rewrite Hc, E1, T1, E2, T2. auto.
  - destruct (EvaluateConst c1) as [z1|] eqn:E1; [|discriminate].
    destruct (to_int z1) as [n1|] eqn:T1; [|discriminate].
    destruct (EvaluateConst c2) as [z2|] eqn:E2; [|discriminate].
    destruct (to_int z2) as [n2|] eqn:T2; [|discriminate].
    unfold ret. intros [= <- <-]. cbn. rewrite Hc, E1, T1, E2, T2. auto.
Qed.

Lemma new_Integrator_resolved (ip : IP) v d coeffs c1 c2 c3 i j w :
  coeffs !! 0%nat = Some c1 -> coeffs !! 1%nat = Some c2 ->
  coeffs !! 2%nat = Some c3 ->
  resolve_index_in_mode (IsComplex c1) ip c1 = Ok i ->
  resolve_index_in_mode (IsComplex c1) ip c2 = Ok j ->
  new_Integrator v d ip coeffs w =
  Ok (mkIntegrator v d (mkDPGintegrator c1 c2 i j) c3,
      mkWorld (cout w ++ greeting (Name_of v) i j) (gridfunctions w)).
Proof.
  intros H0 H1 H2 Hi Hj. unfold new_Integrator, bind.
  rewrite (new_DPGintegrator_resolved ip coeffs c1 c2 i j w H0 H1 Hi Hj).
  unfold lift, Array_get. rewrite H2. reflexivity.
Qed.

Lemma new_Integrator_inv (ip : IP) v d coeffs this w w' :
  new_Integrator v d ip coeffs w = Ok (this, w') ->
  variant this = v /\ D this = d /\ coeffs !! 2%nat = Some (coeff this) /\
  new_DPGintegrator ip coeffs w = Ok (base this, w).
Proof.
  unfold new_Integrator, bind.
  destruct (new_DPGintegrator ip coeffs w) as [[b w1]|] eqn:Hb; [|discriminate].
  destruct (new_DPGintegrator_inv _ _ _ _ _ Hb) as [-> _].
  unfold lift, Array_get.
  destruct (coeffs !! 2%nat) as [c|]; [|discriminate].
  cbn. intros [= <- <-]. cbn. auto.
Qed.

(** A real constant of integer value [n] resolves to [n - 1]. *)
Lemma resolve_real_constant (mode : bool) (ip : IP) (n : Z) :
  INT_MIN < n <= INT_MAX -> mode = false ->
  resolve_index_in_mode mode ip (ConstantCoefficientFunction (double_of_int n))
  = Ok (n - 1).
Proof.
  intros Hn ->. unfold resolve_index_in_mode. cbn.
  rewrite to_int_double_of_int by lia.
  unfold int_sub.
  rewrite wrap_int_id; [reflexivity | unfold INT_MIN, INT_MAX in *; lia].
Qed.

(** C1: for component indices [i] and [j] in the range [0 <= . < ncomp] of a
    compound space ([ncomp] an [int]), the constructor of any of the paired
    integrators, given the constants [i+1] and [j+1] as its first two
    coefficients, returns an object whose [GetInd1()] is [i] and whose
    [GetInd2()] is [j]. *)
Theorem GetInd_of_constant_arguments (ip : IP) (v : Variant) (d ncomp i j : Z)
        c3 coeffs w :
  ncomp <= INT_MAX -> 0 <= i < ncomp -> 0 <= j < ncomp ->
  exists this w',
    new_Integrator v d ip
      (ConstantCoefficientFunction (double_of_int (i + 1))
       :: ConstantCoefficientFunction (double_of_int (j + 1)) :: c3 :: coeffs) w
    = Ok (this, w') /\
    GetInd1 (base this) = i /\ GetInd2 (base this) = j.
Proof.
  intros Hn Hi Hj.
  eexists _, _. split.
  - apply (new_Integrator_resolved ip v d _
             (ConstantCoefficientFunction (double_of_int (i + 1)))
             (ConstantCoefficientFunction (double_of_int (j + 1))) c3 i j);
      try reflexivity.
    + rewrite (resolve_real_constant _ ip (i + 1));
        [f_equal; lia | unfold INT_MIN; lia | reflexivity].
    + rewrite (resolve_real_constant _ ip (j + 1));
        [f_equal; lia | unfold INT_MIN; lia | reflexivity].
  - split; reflexivity.
Qed.

(** A complex constant with real part of integer value [n] resolves to
    [n - 1] in the complex mode. *)
Lemma resolve_complex_constant (ip : IP) (n : Z) (b : double) :
  INT_MIN < n <= INT_MAX ->
  resolve_index_in_mode true ip
    (ConstantCoefficientFunctionC (mkComplex (double_of_int n) b))
  = Ok (n - 1).
Proof.
  intros Hn. unfold resolve_index_in_mode. cbn.
  rewrite to_int_double_of_int by lia.
  unfold int_sub.
  rewrite wrap_int_id; [reflexivity | unfold INT_MIN, INT_MAX in *; lia].
Qed.

(** The same indices come out of two complex constants [i+1 + b1 i] and
    [j+1 + b2 i]. *)
Lemma GetInd_of_complex_constant_arguments (ip : IP) (v : Variant)
      (d ncomp i j : Z) (b1 b2 : double) c3 coeffs w :
  ncomp <= INT_MAX -> 0 <= i < ncomp -> 0 <= j < ncomp ->
  exists this w',
    new_Integrator v d ip
      (ConstantCoefficientFunctionC (mkComplex (double_of_int (i + 1)) b1)
       :: ConstantCoefficientFunctionC (mkComplex (double_of_int (j + 1)) b2)
       :: c3 :: coeffs) w
    = Ok (this, w') /\
    GetInd1 (base this) = i /\ GetInd2 (base this) = j.
Proof.
  intros Hn Hi Hj.
  eexists _, _. split.
  - apply (new_Integrator_resolved ip v d _
             (ConstantCoefficientFunctionC (mkComplex (double_of_int (i + 1)) b1))
             (ConstantCoefficientFunctionC (mkComplex (double_of_int (j + 1)) b2))
             c3 i j);
      try reflexivity.
    + cbn [IsComplex ConstantCoefficientFunctionC].
      rewrite (resolve_complex_constant ip (i + 1));
        [f_equal; lia | unfold INT_MIN; lia].
    + cbn [IsComplex ConstantCoefficientFunctionC].
      rewrite (resolve_complex_constant ip (j + 1));
        [f_equal; lia | unfold INT_MIN; lia].
  - split; reflexivity.
Qed.

(** The symmetry flag of a constructed integrator is decided by its third
    coefficient, in all eight classes. *)
Lemma IsSymmetric_third_coefficient (ip : IP) (v : Variant) (d : Z)
      coeffs c w this w' :
  coeffs !! 2%nat = Some c ->
  new_Integrator v d ip coeffs w = Ok (this, w') ->
  IsSymmetric this = xbool_of_bool (negb (IsComplex c)).
Proof.
  intros Hc Hnew.
  destruct (new_Integrator_inv _ _ _ _ _ _ _ Hnew) as (_ & _ & Hc' & _).
  assert (Hcoeff : coeff this = c) by congruence.
  unfold IsSymmetric. now rewrite Hcoeff.
Qed.

(** C2: for GradGrad, EyeEye, TraceTrace, FluxFluxBoundary,
    TraceTraceBoundary, RobinVolume and FluxTraceBoundary, [IsSymmetric()]
    of a constructed integrator is true when the third constructor argument
    is real-valued and false when it is complex-valued. *)
Theorem IsSymmetric_real_or_complex (ip : IP) (v : Variant) (d : Z)
        coeffs c w this w' :
  In v symmetry_variants ->
  coeffs !! 2%nat = Some c ->
  new_Integrator v d ip coeffs w = Ok (this, w') ->
  (IsComplex c = false -> IsSymmetric this = xtrue) /\
  (IsComplex c = true -> IsSymmetric this = xfalse).
Proof.
  intros _ Hc Hnew.
  rewrite (IsSymmetric_third_coefficient ip v d coeffs c w this w' Hc Hnew).
  split; intros ->; reflexivity.
Qed.

End Construction.

Section Reports.

Context {IP : Type}.
Implicit Types (c : CoefficientFunction IP).
Implicit Types (coeffs : list (CoefficientFunction IP)).

(** C6: an integrator of class FluxFluxBoundary, TraceTraceBoundary or
    FluxTraceBoundary answers true to [BoundaryForm()] and [BND] to [VB()],
    and its [DimElement()] is one less than its [DimSpace()], which is [D]. *)
Theorem boundary_variants_report_boundary (this : Integrator IP) :
  In (variant this) boundary_variants ->
  BoundaryForm this = true /\ VB this = BND /\
  exists de ds, DimElement this = Some de /\ DimSpace this = Some ds /\
                ds = D this /\ de = ds - 1.
Proof.
  intros Hv. unfold BoundaryForm, VB, DimElement, DimSpace.
  cbn in Hv. destruct Hv as [<- | [<- | [<- | []]]];
    (split; [reflexivity |
             split; [reflexivity | eexists _, _; repeat split; reflexivity]]).
Qed.

(** C7: an integrator of class RobinVolume reports a volume form:
    [BoundaryForm()] is false, [VB()] is [VOL], and [DimElement()] and
    [DimSpace()] are both [D]. *)
Theorem RobinVolume_reports_volume (this : Integrator IP) :
  variant this = RobinVolume ->
  BoundaryForm this = false /\ VB this = VOL /\
  DimElement this = Some (D this) /\ DimSpace this = Some (D this).
Proof.
  intros Hv. unfold BoundaryForm, VB, DimElement, DimSpace. rewrite Hv. auto.
Qed.

(** C3 (the code departs from it): the constructor of [NeumannVolume] reads
    [coeffs[4]] whatever [D] is; on an array of four coefficients, the 2D
    form of the header's own comment, that access is outside the array. *)
Theorem NeumannVolume_four_arguments_out_of_range (d : Z) c0 c1 c2 c3 w :
  new_NeumannVolume d [c0; c1; c2; c3] w = Raise (RangeError 4 4).
Proof. reflexivity. Qed.

(** With five coefficients, the 3D form, the constructor returns. *)
Lemma NeumannVolume_five_arguments (d n : Z) c1 c2 c3 c4 w :
  INT_MIN < n <= INT_MAX ->
  new_NeumannVolume d
    [ConstantCoefficientFunction (double_of_int n); c1; c2; c3; c4] w =
  Ok (mkNeumannVolume d (ConstantCoefficientFunction (double_of_int n))
        c1 c2 c3 c4 (n - 1),
      mkWorld (cout w ++ [OutStr "Using DPG source integrator ";
                          OutStr "NeumannVolume"; OutStr " on component ";
                          OutInt (int_add (n - 1) 1); OutEndl])
              (gridfunctions w)).
Proof.
  intros Hn. unfold new_NeumannVolume, bind, lift. cbn.
  rewrite to_int_double_of_int by lia.
  unfold int_sub.
  rewrite wrap_int_id by (unfold INT_MIN, INT_MAX in *; lia).
  reflexivity.
Qed.

(** C4 (amended): both index arguments are resolved in the mode that the
    FIRST argument selects, constant evaluation when the first argument is
    real-valued and complex point evaluation (its real part) when the first
    argument is complex-valued, then converted to [int] and decremented;
    when the second argument has the value type of the first, this is the
    argument-by-argument rule. *)
Theorem index_mode_from_first_argument (ip : IP) (v : Variant) (d : Z)
        coeffs c1 c2 c3 (i j : Z) w :
  coeffs !! 0%nat = Some c1 -> coeffs !! 1%nat = Some c2 ->
  coeffs !! 2%nat = Some c3 ->
  resolve_index_in_mode (IsComplex c1) ip c1 = Ok i ->
  resolve_index_in_mode (IsComplex c1) ip c2 = Ok j ->
  (exists this w',
      new_Integrator v d ip coeffs w = Ok (this, w') /\
      GetInd1 (base this) = i /\ GetInd2 (base this) = j) /\
  (IsComplex c2 = IsComplex c1 ->
   resolve_index_per_argument ip c1 = Ok i /\
   resolve_index_per_argument ip c2 = Ok j).
Proof.
  intros H0 H1 H2 Hi Hj. split.
  - eexists _, _. split.
    + apply (new_Integrator_resolved ip v d coeffs c1 c2 c3 i j w); assumption.
    + split; reflexivity.
  - intros Hsame. unfold resolve_index_per_argument. rewrite Hsame. auto.
Qed.

End Reports.

(** *** Constructions on sample arguments *)

Example new_GradGrad_1_2 :
  new_Integrator GradGrad 2 tt
    [Samples.constant 1; Samples.constant 2; Samples.constant 1]
    Samples.empty_world
  = Ok (Samples.integrator_1_2 GradGrad,
        mkWorld [OutStr "Using DPG integrator "; OutStr "GradGrad";
                 OutStr " with components "; OutInt 1;
                 OutStr " and "; OutInt 2; OutEndl] ∅).
Proof. vm_compute. reflexivity. Qed.

(** A complex first argument: the real second argument is evaluated at the
    point as well. *)
Example new_EyeEye_complex_first :
  exists this w',
    new_Integrator EyeEye 2 tt
      [Samples.constantC 3; Samples.constant 1; Samples.constantC 5]
      Samples.empty_world = Ok (this, w') /\
    GetInd1 (base this) = 2 /\ GetInd2 (base this) = 0 /\
    IsSymmetric this = xfalse.
Proof. eexists _, _. vm_compute. repeat split; reflexivity. Qed.

(** Two coefficients are not enough for a derived class. *)
Example new_TraceTrace_two_arguments :
  new_Integrator TraceTrace 2 tt [Samples.constant 1; Samples.constant 2]
    Samples.empty_world = Raise (RangeError 2 2).
Proof. vm_compute. reflexivity. Qed.

(** The index argument 2.5 is truncated to 2: [ind1] is 1. *)
Example new_DPGintegrator_truncates :
  exists b w',
    new_DPGintegrator tt
      [ConstantCoefficientFunction (S754_finite false 5 (-1));
       Samples.constant 1] Samples.empty_world = Ok (b, w') /\
    GetInd1 b = 1 /\ GetInd2 b = 0.
Proof. eexists _, _. vm_compute. repeat split; reflexivity. Qed.

(** *** The statements on concrete arguments *)

Lemma GetInd_of_constant_arguments_witness :
  exists this w',
    new_Integrator GradGrad 2 tt
      [Samples.constant 1; Samples.constant 2; Samples.constant 1]
      Samples.empty_world = Ok (this, w') /\
    GetInd1 (base this) = 0 /\ GetInd2 (base this) = 1.
Proof.
  apply (GetInd_of_constant_arguments tt GradGrad 2 2 0 1
           (Samples.constant 1) [] Samples.empty_world);
    unfold INT_MAX; lia.
Defined.

Lemma IsSymmetric_real_or_complex_witness :
  (IsComplex (Samples.constant 1) = false ->
   IsSymmetric (Samples.integrator_1_2 RobinVolume) = xtrue) /\
  (IsComplex (Samples.constant 1) = true ->
   IsSymmetric (Samples.integrator_1_2 RobinVolume) = xfalse).
Proof.
  apply (IsSymmetric_real_or_complex tt RobinVolume 2
           [Samples.constant 1; Samples.constant 2; Samples.constant 1]
           (Samples.constant 1) Samples.empty_world
           (Samples.integrator_1_2 RobinVolume)
           (mkWorld (greeting "RobinVolume" 0 1) ∅)).
  - cbn. auto 10.
  - reflexivity.
  - vm_compute. reflexivity.
Defined.

Lemma boundary_variants_report_boundary_witness :
  BoundaryForm (Samples.integrator_1_2 TraceTraceBoundary) = true /\
  VB (Samples.integrator_1_2 TraceTraceBoundary) = BND /\
  exists de ds,
    DimElement (Samples.integrator_1_2 TraceTraceBoundary) = Some de /\
    DimSpace (Samples.integrator_1_2 TraceTraceBoundary) = Some ds /\
    ds = 2 /\ de = ds - 1.
Proof.
  apply (boundary_variants_report_boundary
           (Samples.integrator_1_2 TraceTraceBoundary)).
  cbn. auto.
Defined.

Lemma RobinVolume_reports_volume_witness :
  BoundaryForm (Samples.integrator_1_2 RobinVolume) = false /\
  VB (Samples.integrator_1_2 RobinVolume) = VOL /\
  DimElement (Samples.integrator_1_2 RobinVolume) = Some 2 /\
  DimSpace (Samples.integrator_1_2 RobinVolume) = Some 2.
Proof.
  apply (RobinVolume_reports_volume (Samples.integrator_1_2 RobinVolume)).
  reflexivity.
Defined.

(** C4 as stated fails: with a real first argument and a complex second
    argument, the argument-by-argument rule gives the indices 0 and 1, but
    the constructor evaluates the second argument as a constant, which the
    complex constant does not support, and returns no object. *)
Lemma index_mode_per_argument_counterexample :
  resolve_index_per_argument tt (Samples.constant 1) = Ok 0 /\
  resolve_index_per_argument tt (Samples.constantC 2) = Ok 1 /\
  new_Integrator GradGrad 2 tt
    [Samples.constant 1; Samples.constantC 2; Samples.constant 1]
    Samples.empty_world
  = Raise (Exception "EvaluateConst called for non-const coefficient function") /\
  ~ (exists this w',
        new_Integrator GradGrad 2 tt
          [Samples.constant 1; Samples.constantC 2; Samples.constant 1]
          Samples.empty_world = Ok (this, w') /\
        GetInd1 (base this) = 0 /\ GetInd2 (base this) = 1).
Proof.
  assert (Hraise :
    new_Integrator GradGrad 2 tt
      [Samples.constant 1; Samples.constantC 2; Samples.constant 1]
      Samples.empty_world
    = Raise (Exception "EvaluateConst called for non-const coefficient function"))
    by (vm_compute; reflexivity).
  repeat split; try (vm_compute; reflexivity); try exact Hraise.
  intros (this & w' & Hnew & _). rewrite Hraise in Hnew. discriminate.
Qed.

Lemma index_mode_from_first_argument_witness :
  (exists this w',
      new_Integrator FluxTrace 3 tt
        [Samples.constantC 1; Samples.constant 2; Samples.constant 1]
        Samples.empty_world = Ok (this, w') /\
      GetInd1 (base this) = 0 /\ GetInd2 (base this) = 1) /\
  (IsComplex (Samples.constant 2) = IsComplex (Samples.constantC 1) ->
   resolve_index_per_argument tt (Samples.constantC 1) = Ok 0 /\
   resolve_index_per_argument tt (Samples.constant 2) = Ok 1).
Proof.
  apply (index_mode_from_first_argument tt FluxTrace 3
           [Samples.constantC 1; Samples.constant 2; Samples.constant 1]
           (Samples.constantC 1) (Samples.constant 2) (Samples.constant 1)
           0 1 Samples.empty_world);
    vm_compute; reflexivity.
Defined.

End DPGFacts.

(** ** The numproc *)

Module GetComponentFacts.

Lemma SetVector_SetVector (g : GridFunction) (v v' : BaseVector) :
  SetVector (SetVector g v) v' = SetVector g v'.
Proof. destruct g; reflexivity. Qed.

Lemma GetVector_SetVector (g : GridFunction) (v : BaseVector) :
  GetVector (SetVector g v) = v.
Proof. destruct g; reflexivity. Qed.

Lemma SetVector_GetVector (g : GridFunction) : SetVector g (GetVector g) = g.
Proof. destruct g; reflexivity. Qed.

Lemma length_flatten (l : list Complex) :
  length (flatten l) = (2 * length l)%nat.
Proof.
  induction l as [|c l IH]; [reflexivity|].
  change (flatten (c :: l)) with (real c :: imag c :: flatten l).
  cbn [length]. rewrite IH. lia.
Qed.

Lemma unflatten_flatten (l : list Complex) : unflatten (flatten l) = l.
Proof.
  induction l as [|[a b] l IH]; [reflexivity|].
  change (flatten (mkComplex a b :: l)) with (a :: b :: flatten l).
  cbn [unflatten]. now rewrite IH.
Qed.

Section Loop.

Variable part : Complex -> double.
Variable this : NumProcGetComponent.
Variables (G1 G2 comp : GridFunction) (src : list Complex).
Hypothesis Hcomp : GetComponent G1 (ind this) = Ok comp.
Hypothesis Hsrc : GetVector comp = ComplexVector src.
Hypothesis Hne : gf1 this ≠ gf2 this.

(** The loop from counter [i] on, with [n] entries still to write: the
    entries before [i] stay, the others become the parts of the source. *)
Lemma copy_loop_spec (n : nat) :
  forall (i fuel : nat) (d : list double) (w : World),
    (i + n = length src)%nat -> length d = length src -> (n < fuel)%nat ->
    gridfunctions w !! gf1 this = Some G1 ->
    gridfunctions w !! gf2 this = Some (SetVector G2 (RealVector d)) ->
    for_loop fuel (loop_cond this) (loop_body part this) i w =
    Ok (tt, mkWorld (cout w)
              (<[gf2 this := SetVector G2
                   (RealVector (take i d ++ map part (drop i src)))]>
                 (gridfunctions w))).
Proof.
  induction n as [|n IH]; intros i fuel d w Hi Hd Hfuel Hg1 Hg2.
  - destruct fuel as [|fuel]; [lia|].
    cbn [for_loop]. unfold loop_cond, deref, ret, bind. rewrite Hg2.
    rewrite GetVector_SetVector. cbn [FVDouble].
    rewrite bool_decide_eq_false_2 by lia.
    rewrite take_ge, drop_ge by lia. cbn [map]. rewrite app_nil_r.
    rewrite insert_id by assumption. destruct w; reflexivity.
  - destruct fuel as [|fuel]; [lia|].
    assert (Hlt : (i < length src)%nat) by lia.
    destruct (lookup_lt_is_Some_2 src i Hlt) as [c Hc].
    cbn [for_loop]. unfold loop_cond, deref, ret, bind.
    rewrite Hg2, GetVector_SetVector. cbn [FVDouble].
    rewrite bool_decide_eq_true_2 by lia.
    unfold loop_body, deref, lift, bind. rewrite Hg1, Hcomp, Hsrc.
    cbn [FVComplex].
    unfold FlatVector_get, Array_get. rewrite Hc, Hg2.
    rewrite GetVector_SetVector. cbn [FVDouble_set].
    rewrite decide_True by lia. unfold store. rewrite SetVector_SetVector.
    rewrite (IH (S i) fuel (<[i:=part c]> d)); cbn [cout gridfunctions].
    + rewrite insert_insert_eq. do 3 f_equal.
      rewrite (drop_S src c i Hc). cbn [map].
      rewrite (take_S_r (<[i:=part c]> d) i (part c))
        by (apply list_lookup_insert_eq; lia).
      rewrite take_insert_ge by lia. rewrite <- app_assoc. reflexivity.
    + lia.
    + rewrite length_insert. assumption.
    + lia.
    + rewrite lookup_insert_ne by (intros E; apply Hne; symmetry; exact E).
      assumption.
    + apply lookup_insert_eq.
Qed.

End Loop.

Section DoFacts.

Variable this : NumProcGetComponent.
Variables (G1 G2 comp : GridFunction) (src : list Complex) (w : World).
Hypothesis Hg1 : gridfunctions w !! gf1 this = Some G1.
Hypothesis Hcomp : GetComponent G1 (ind this) = Ok comp.
Hypothesis Hsrc : GetVector comp = ComplexVector src.
Hypothesis Hg2 : gridfunctions w !! gf2 this = Some G2.
Hypothesis Hne : gf1 this ≠ gf2 this.

Lemma projection_loop (part : Complex -> double) (fuel : nat)
      (dst : list double) (out : list out_item) :
  GetVector G2 = RealVector dst -> length dst = length src ->
  (length src < fuel)%nat ->
  for_loop fuel (loop_cond this) (loop_body part this) 0
           (mkWorld out (gridfunctions w)) =
  Ok (tt, mkWorld out
            (<[gf2 this := SetVector G2 (RealVector (map part src))]>
               (gridfunctions w))).
Proof.
  intros Hdst Hlen Hfuel.
  rewrite (copy_loop_spec part this G1 G2 comp src Hcomp Hsrc Hne
             (length src) 0 fuel dst); cbn [cout gridfunctions];
    try lia; try assumption.
  - rewrite take_0, drop_0. reflexivity.
  - rewrite <- Hdst, SetVector_GetVector. assumption.
Qed.

Lemma Do_real_part (fuel : nat) (dst : list double) :
  re this = true ->
  GetVector G2 = RealVector dst -> length dst = length src ->
  (length src < fuel)%nat ->
  Do fuel this w =
  Ok (tt, mkWorld (cout w ++ announcement this (GetClassName G2)
                        ++ [OutStr ", REAL part"; OutEndl])
            (<[gf2 this := SetVector G2 (RealVector (map real src))]>
               (gridfunctions w))).
Proof.
  intros Hre Hdst Hlen Hfuel. unfold Do, deref, print, bind.
  rewrite Hg2, Hre. cbn [cout gridfunctions].
  rewrite <- app_assoc. apply projection_loop with (dst := dst); assumption.
Qed.

Lemma Do_imag_part (fuel : nat) (dst : list double) :
  re this = false -> im this = true ->
  GetVector G2 = RealVector dst -> length dst = length src ->
  (length src < fuel)%nat ->
  Do fuel this w =
  Ok (tt, mkWorld (cout w ++ announcement this (GetClassName G2)
                        ++ [OutStr ", IMAG part"; OutEndl])
            (<[gf2 this := SetVector G2 (RealVector (map imag src))]>
               (gridfunctions w))).
Proof.
  intros Hre Him Hdst Hlen Hfuel. unfold Do, deref, print, bind.
  rewrite Hg2, Hre, Him. cbn [cout gridfunctions].
  rewrite <- app_assoc. apply projection_loop with (dst := dst); assumption.
Qed.

Lemma Do_whole_vector (fuel : nat) (dst : list Complex) :
  re this = false -> im this = false ->
  GetVector G2 = ComplexVector dst -> length dst = length src ->
  Do fuel this w =
  Ok (tt, mkWorld (cout w ++ announcement this (GetClassName G2) ++ [OutEndl])
            (<[gf2 this := SetVector G2 (ComplexVector src)]>
               (gridfunctions w))).
Proof.
  intros Hre Him Hdst Hlen. unfold Do, deref, print, lift, store, bind.
  rewrite Hg2, Hre, Him. cbn [cout gridfunctions].
  rewrite Hg1, Hcomp. cbn [cout gridfunctions]. rewrite Hg2, Hdst, Hsrc.
  unfold BaseVector_assign. cbn [FVDouble].
  rewrite decide_True by (rewrite !length_flatten; lia).
  rewrite unflatten_flatten. cbn [cout gridfunctions].
  rewrite <- app_assoc. reflexivity.
Qed.

End DoFacts.

Section Extraction.

(** The source: a compound grid function [g1] whose component [n] has the
    complex entries [src].  The destination: another grid function [g2],
    of class [cls], with as many entries as the component. *)
Variables (g1 g2 : string) (n : Z).
Variables (G1 comp : GridFunction) (src : list Complex).
Variables (cls : string) (comps : list GridFunction).
Variable gfs : gmap string GridFunction.
Hypothesis Hne : g1 ≠ g2.
Hypothesis Hg1 : gfs !! g1 = Some G1.
Hypothesis Hcomp : GetComponent G1 n = Ok comp.
Hypothesis Hsrc : GetVector comp = ComplexVector src.

Lemma Do_on_destination (fuel : nat) (re_flag im_flag : bool)
      (dst v : BaseVector) (out items : list out_item) :
  (forall w,
      gridfunctions w !! g1 = Some G1 ->
      gridfunctions w !! g2 = Some (MkGridFunction cls dst comps) ->
      Do fuel (mkNumProcGetComponent g1 g2 n re_flag im_flag) w =
      Ok (tt, mkWorld (cout w ++ items)
                (<[g2 := SetVector (MkGridFunction cls dst comps) v]>
                   (gridfunctions w)))) ->
  Do fuel (mkNumProcGetComponent g1 g2 n re_flag im_flag)
     (mkWorld out (<[g2 := MkGridFunction cls dst comps]> gfs)) =
  Ok (tt, mkWorld (out ++ items) (<[g2 := MkGridFunction cls v comps]> gfs)).
Proof.
  intros HDo. rewrite HDo; cbn [cout gridfunctions SetVector].
  - rewrite insert_insert_eq. reflexivity.
  - rewrite lookup_insert_ne by (intros E; apply Hne; symmetry; exact E).
    assumption.
  - apply lookup_insert_eq.
Qed.

(** C5: on a component with complex entries, [Do] with the real flag writes
    exactly the real parts into the destination, with the imaginary flag
    (and no real flag) exactly the imaginary parts, and with neither flag
    the destination becomes the component, entry for entry; the values are
    copied as they are. *)
Theorem Do_extracts_component (fuel : nat) (dst_r : list double)
        (dst_c : list Complex) (out : list out_item) :
  length dst_r = length src -> length dst_c = length src ->
  (length src < fuel)%nat ->
  Do fuel (mkNumProcGetComponent g1 g2 n true false)
     (mkWorld out (<[g2 := MkGridFunction cls (RealVector dst_r) comps]> gfs))
  = Ok (tt, mkWorld
              (out ++ announcement (mkNumProcGetComponent g1 g2 n true false) cls
                   ++ [OutStr ", REAL part"; OutEndl])
              (<[g2 := MkGridFunction cls (RealVector (map real src)) comps]>
                 gfs))
  /\
  Do fuel (mkNumProcGetComponent g1 g2 n false true)
     (mkWorld out (<[g2 := MkGridFunction cls (RealVector dst_r) comps]> gfs))
  = Ok (tt, mkWorld
              (out ++ announcement (mkNumProcGetComponent g1 g2 n false true) cls
                   ++ [OutStr ", IMAG part"; OutEndl])
              (<[g2 := MkGridFunction cls (RealVector (map imag src)) comps]>
                 gfs))
  /\
  Do fuel (mkNumProcGetComponent g1 g2 n false false)
     (mkWorld out (<[g2 := MkGridFunction cls (ComplexVector dst_c) comps]> gfs))
  = Ok (tt, mkWorld
              (out ++ announcement (mkNumProcGetComponent g1 g2 n false false) cls
                   ++ [OutEndl])
              (<[g2 := MkGridFunction cls (ComplexVector src) comps]> gfs)).
Proof.
  intros Hr Hc Hfuel. repeat split.
  - apply Do_on_destination. intros w Hw1 Hw2.
    apply (Do_real_part (mkNumProcGetComponent g1 g2 n true false) G1 _
             comp src w Hw1 Hcomp Hsrc Hw2 Hne fuel dst_r); auto.
  - apply Do_on_destination. intros w Hw1 Hw2.
    apply (Do_imag_part (mkNumProcGetComponent g1 g2 n false true) G1 _
             comp src w Hw1 Hcomp Hsrc Hw2 Hne fuel dst_r); auto.
  - apply Do_on_destination. intros w Hw1 Hw2.
    apply (Do_whole_vector (mkNumProcGetComponent g1 g2 n false false) G1 _
             comp src w Hw1 Hcomp Hsrc Hw2 fuel dst_c); auto.
Qed.

End Extraction.

(** C9: with both flags set [Do] is [Do] with the real flag alone, on every
    state; on a component with complex entries the destination receives the
    real parts, and what is written to [cout] is the line of the real
    branch. *)
Theorem both_flags_as_real_flag (fuel : nat) (g1 g2 : string) (n : Z) :
  (forall w,
      Do fuel (mkNumProcGetComponent g1 g2 n true true) w =
      Do fuel (mkNumProcGetComponent g1 g2 n true false) w) /\
  (forall G1 comp src cls comps gfs dst out,
      g1 ≠ g2 -> gfs !! g1 = Some G1 -> GetComponent G1 n = Ok comp ->
      GetVector comp = ComplexVector src ->
      length dst = length src -> (length src < fuel)%nat ->
      Do fuel (mkNumProcGetComponent g1 g2 n true true)
         (mkWorld out (<[g2 := MkGridFunction cls (RealVector dst) comps]> gfs))
      = Ok (tt, mkWorld
                  (out ++ announcement (mkNumProcGetComponent g1 g2 n true true) cls
                       ++ [OutStr ", REAL part"; OutEndl])
                  (<[g2 := MkGridFunction cls (RealVector (map real src)) comps]>
                     gfs))).
Proof.
  split; [reflexivity|].
  intros G1 comp src cls comps gfs dst out Hne Hg1 Hcomp Hsrc Hlen Hfuel.
  apply (Do_on_destination g1 g2 n G1 cls comps gfs Hne Hg1).
  intros w Hw1 Hw2.
  apply (Do_real_part (mkNumProcGetComponent g1 g2 n true true) G1 _
           comp src w Hw1 Hcomp Hsrc Hw2 Hne fuel dst); auto.
Qed.

Lemma default_comp_flag :
  to_int (double_sub (double_of_int 1) (double_of_int 1)) = Ok 0%Z.
Proof. reflexivity. Qed.

Lemma GetComponent_first (G first : GridFunction) (rest : list GridFunction) :
  Components G = first :: rest -> GetComponent G 0 = Ok first.
Proof.
  intros HG. unfold GetComponent, Array_get. cbn. rewrite HG. reflexivity.
Qed.

(** Without the flag [comp], the constructor on the grid functions that the
    two string flags name. *)
Lemma new_NumProcGetComponent_default (flags : Flags) (g1 g2 : string)
      (w : World) :
  numflags flags !! "comp" = None ->
  strflags flags !! "compoundgf" = Some g1 ->
  strflags flags !! "componentgf" = Some g2 ->
  is_Some (gridfunctions w !! g1) -> is_Some (gridfunctions w !! g2) ->
  new_NumProcGetComponent flags w =
  Ok (mkNumProcGetComponent g1 g2 0
        (GetDefineFlag flags "re") (GetDefineFlag flags "im"), w).
Proof.
  intros Hcomp Hs1 Hs2 [G1 Hg1] [G2 Hg2].
  unfold new_NumProcGetComponent, GetGridFunction, GetStringFlag, lift, ret, bind.
  rewrite Hs1, Hs2, Hg1. unfold GetNumFlag. rewrite Hcomp. cbn [default].
  rewrite default_comp_flag. rewrite Hg2. reflexivity.
Qed.

(** C10: without the flag [comp] the component number is 1: the
    constructor returns the numproc of the two grid functions named by
    [compoundgf] and [componentgf] with [ind] 0, the number announced is 1,
    and [Do] of the constructed numproc leaves in the destination the
    entries of the first component of the compound grid function (their
    real or imaginary parts with a projection flag). *)
Theorem default_component_index (fuel : nat) (flags : Flags) (g1 g2 : string)
        (G1 first : GridFunction) (rest : list GridFunction)
        (src : list Complex) (cls : string) (comps : list GridFunction)
        (dst_r : list double) (dst_c : list Complex)
        (out : list out_item) (gfs : gmap string GridFunction) :
  numflags flags !! "comp" = None ->
  strflags flags !! "compoundgf" = Some g1 ->
  strflags flags !! "componentgf" = Some g2 ->
  g1 ≠ g2 -> gfs !! g1 = Some G1 ->
  Components G1 = first :: rest -> GetVector first = ComplexVector src ->
  length dst_r = length src -> length dst_c = length src ->
  (length src < fuel)%nat ->
  let re_flag := GetDefineFlag flags "re" in
  let im_flag := GetDefineFlag flags "im" in
  let this := mkNumProcGetComponent g1 g2 0 re_flag im_flag in
  let w := mkWorld out
             (<[g2 := MkGridFunction cls
                        (if re_flag || im_flag then RealVector dst_r
                         else ComplexVector dst_c) comps]> gfs) in
  new_NumProcGetComponent flags w = Ok (this, w) /\
  announcement this cls =
  [OutStr "GetComponent "; OutInt 1; OutStr ", of type "; OutStr cls; OutFlush] /\
  (constructed <- new_NumProcGetComponent flags ;; Do fuel constructed) w =
  Ok (tt, mkWorld
            (out ++ announcement this cls
                 ++ (if re_flag || im_flag then projection_line this
                     else [OutEndl]))
            (<[g2 := MkGridFunction cls
                       (if re_flag || im_flag
                        then RealVector (map (projection this) src)
                        else ComplexVector src) comps]> gfs)).
Proof.
  intros Hflag Hs1 Hs2 Hne Hg1 HG1 Hsrc Hr Hc Hfuel re_flag im_flag this w.
  assert (Hnew : new_NumProcGetComponent flags w = Ok (this, w)).
  { apply new_NumProcGetComponent_default; try assumption.
    - exists G1. cbn.
      rewrite lookup_insert_ne by (intros E; apply Hne; symmetry; exact E).
      exact Hg1.
    - eexists. cbn. apply lookup_insert_eq. }
  split; [exact Hnew|]. split; [reflexivity|].
  unfold bind. rewrite Hnew.
  pose proof (GetComponent_first G1 first rest HG1) as Hcomp.
  unfold w, this. unfold projection, projection_line. cbn [re im].
  destruct re_flag; [|destruct im_flag]; cbn [orb].
  - apply (Do_on_destination g1 g2 0 G1 cls comps gfs Hne Hg1).
    intros w0 Hw1 Hw2.
    apply (Do_real_part (mkNumProcGetComponent g1 g2 0 true im_flag) G1 _
             first src w0 Hw1 Hcomp Hsrc Hw2 Hne fuel dst_r); auto.
  - apply (Do_on_destination g1 g2 0 G1 cls comps gfs Hne Hg1).
    intros w0 Hw1 Hw2.
    apply (Do_imag_part (mkNumProcGetComponent g1 g2 0 false true) G1 _
             first src w0 Hw1 Hcomp Hsrc Hw2 Hne fuel dst_r); auto.
  - apply (Do_on_destination g1 g2 0 G1 cls comps gfs Hne Hg1).
    intros w0 Hw1 Hw2.
    apply (Do_whole_vector (mkNumProcGetComponent g1 g2 0 false false) G1 _
             first src w0 Hw1 Hcomp Hsrc Hw2 fuel dst_c); auto.
Qed.

(** *** Runs of [Do] on the sample state *)

(** Two entries need three evaluations of the loop condition. *)
Example Do_real_run :
  Do 3 (Samples.getcomp true false) Samples.world_uv =
  Ok (tt, mkWorld
            [OutStr "GetComponent "; OutInt 1; OutStr ", of type ";
             OutStr "L2HighOrderFESpace"; OutFlush;
             OutStr ", REAL part"; OutEndl]
            (gridfunctions
               (Samples.world_with
                  (RealVector [double_of_int 1; double_of_int 3])))).
Proof. vm_compute. reflexivity. Qed.

Example Do_out_of_fuel :
  Do 2 (Samples.getcomp true false) Samples.world_uv = Raise OutOfFuel.
Proof. vm_compute. reflexivity. Qed.

(** A destination longer than the component makes the loop read the
    component outside its entries. *)
Example Do_destination_too_long :
  Do 9 (Samples.getcomp false true)
     (Samples.world_with
        (RealVector [Samples.zero; Samples.zero; Samples.zero]))
  = Raise (RangeError 2 2).
Proof. vm_compute. reflexivity. Qed.

(** A component number outside the compound grid function. *)
Example Do_no_such_component :
  Do 9 (mkNumProcGetComponent "u" "v" 2 true false) Samples.world_uv
  = Raise (RangeError 2 2).
Proof. vm_compute. reflexivity. Qed.

(** *** The statements on concrete arguments *)

Lemma Do_extracts_component_witness :
  Do 3 (Samples.getcomp true false)
     (Samples.world_with (RealVector [Samples.zero; Samples.zero]))
  = Ok (tt, mkWorld
              ([] ++ announcement (Samples.getcomp true false) "L2HighOrderFESpace"
                  ++ [OutStr ", REAL part"; OutEndl])
              (<["v" := MkGridFunction "L2HighOrderFESpace"
                          (RealVector (map real Samples.entries1)) []]>
                 Samples.others))
  /\
  Do 3 (Samples.getcomp false true)
     (Samples.world_with (RealVector [Samples.zero; Samples.zero]))
  = Ok (tt, mkWorld
              ([] ++ announcement (Samples.getcomp false true) "L2HighOrderFESpace"
                  ++ [OutStr ", IMAG part"; OutEndl])
              (<["v" := MkGridFunction "L2HighOrderFESpace"
                          (RealVector (map imag Samples.entries1)) []]>
                 Samples.others))
  /\
  Do 3 (Samples.getcomp false false)
     (Samples.world_with (ComplexVector Samples.entries2))
  = Ok (tt, mkWorld
              ([] ++ announcement (Samples.getcomp false false) "L2HighOrderFESpace"
                  ++ [OutEndl])
              (<["v" := MkGridFunction "L2HighOrderFESpace"
                          (ComplexVector Samples.entries1) []]>
                 Samples.others)).
Proof.
  apply (Do_extracts_component "u" "v" 0 Samples.compound Samples.component1
           Samples.entries1 "L2HighOrderFESpace" [] Samples.others).
  - discriminate.
  - vm_compute. reflexivity.
  - reflexivity.
  - reflexivity.
  - reflexivity.
  - reflexivity.
  - simpl. lia.
Defined.

Lemma both_flags_as_real_flag_witness :
  Do 3 (Samples.getcomp true true) Samples.world_uv
  = Do 3 (Samples.getcomp true false) Samples.world_uv /\
  Do 3 (Samples.getcomp true true) Samples.world_uv
  = Ok (tt, mkWorld
              ([] ++ announcement (Samples.getcomp true true) "L2HighOrderFESpace"
                  ++ [OutStr ", REAL part"; OutEndl])
              (<["v" := MkGridFunction "L2HighOrderFESpace"
                          (RealVector (map real Samples.entries1)) []]>
                 Samples.others)).
Proof.
  split.
  - apply (proj1 (both_flags_as_real_flag 3 "u" "v" 0)).
  - apply (proj2 (both_flags_as_real_flag 3 "u" "v" 0)
             Samples.compound Samples.component1 Samples.entries1
             "L2HighOrderFESpace" [] Samples.others
             [Samples.zero; Samples.zero] []).
    + discriminate.
    + vm_compute. reflexivity.
    + reflexivity.
    + reflexivity.
    + reflexivity.
    + simpl. lia.
Defined.

(** The flags [-compoundgf=u -componentgf=v] alone: the complex destination
    "v" receives the first component of "u". *)
Lemma default_component_index_witness :
  new_NumProcGetComponent Samples.flags_without_comp
    (Samples.world_with (ComplexVector Samples.entries2))
  = Ok (Samples.getcomp false false,
        Samples.world_with (ComplexVector Samples.entries2)) /\
  announcement (Samples.getcomp false false) "L2HighOrderFESpace" =
  [OutStr "GetComponent "; OutInt 1; OutStr ", of type ";
   OutStr "L2HighOrderFESpace"; OutFlush] /\
  (constructed <- new_NumProcGetComponent Samples.flags_without_comp ;;
   Do 3 constructed) (Samples.world_with (ComplexVector Samples.entries2))
  = Ok (tt, mkWorld
              ([] ++ announcement (Samples.getcomp false false)
                                  "L2HighOrderFESpace" ++ [OutEndl])
              (<["v" := MkGridFunction "L2HighOrderFESpace"
                          (ComplexVector Samples.entries1) []]>
                 Samples.others)).
Proof.
  apply (default_component_index 3 Samples.flags_without_comp "u" "v"
           Samples.compound Samples.component1 [Samples.component2]
           Samples.entries1 "L2HighOrderFESpace" []
           [Samples.zero; Samples.zero] Samples.entries2 [] Samples.others).
  - vm_compute. reflexivity.
  - vm_compute. reflexivity.
  - vm_compute. reflexivity.
  - discriminate.
  - vm_compute. reflexivity.
  - reflexivity.
  - reflexivity.
  - reflexivity.
  - reflexivity.
  - simpl. lia.
Defined.

End GetComponentFacts.

(** ** More on numbers *)

Module ArithmeticFacts.

Local Open Scope Z_scope.

Lemma int_of_double_range (x : double) (n : Z) :
  int_of_double x = Some n -> INT_MIN <= n <= INT_MAX.
Proof.
  unfold int_of_double. destruct (double_trunc x) as [z|]; [|discriminate].
  destruct (INT_MIN <=? z) eqn:Hlo; [|discriminate].
  destruct (z <=? INT_MAX) eqn:Hhi; [|discriminate].
  intros [= <-]. apply Z.leb_le in Hlo, Hhi. lia.
Qed.

(** Decrementing and incrementing an [int] gives it back, also where the
    decrement wraps around. *)
Lemma int_add_sub_1 (n : Z) :
  INT_MIN <= n <= INT_MAX -> int_add (int_sub n 1) 1 = n.
Proof.
  unfold int_add, int_sub, wrap_int, INT_MIN, INT_MAX. intros Hn.
  replace ((n - 1 + 2 ^ 31) mod 2 ^ 32 - 2 ^ 31 + 1 + 2 ^ 31)
    with ((n - 1 + 2 ^ 31) mod 2 ^ 32 + 1) by lia.
  rewrite Z.add_mod_idemp_l by lia.
  replace (n - 1 + 2 ^ 31 + 1) with (n + 2 ^ 31) by lia.
  rewrite Z.mod_small by lia. lia.
Qed.

Lemma iter_pos_iter {A : Type} (f : A -> A) (n : positive) :
  forall x, SpecFloat.iter_pos f n x = Pos.iter f x n.
Proof.
  induction n as [n IH | n IH |]; intros x; cbn [SpecFloat.iter_pos Pos.iter].
  - rewrite !IH. rewrite !Pos.iter_swap. reflexivity.
  - rewrite !IH. reflexivity.
  - reflexivity.
Qed.

(** Shifting to the right a mantissa that was shifted to the left loses
    nothing. *)
Lemma shr_exact (k m : positive) :
  SpecFloat.iter_pos shr_1 k
    (Build_shr_record (Zpos (Pos.iter xO m k)) false false)
  = Build_shr_record (Zpos m) false false.
Proof.
  rewrite iter_pos_iter.
  induction k as [|k IH] using Pos.peano_ind.
  - reflexivity.
  - rewrite (Pos.iter_succ k positive xO). rewrite Pos.iter_succ_r.
    cbn [shr_1 orb]. exact IH.
Qed.

Lemma binary_round_aux_shift (s : bool) (m k : positive) (e : Z) :
  Zpos (digits2_pos m) = 53 -> -1074 <= e -> e + Zpos k <= 971 ->
  binary_round_aux prec emax s (Zpos (Pos.iter xO m k)) e loc_Exact
  = S754_finite s m (e + Zpos k).
Proof.
  intros Hd Hlo Hhi.
  destruct (iter_xO_spec k m) as [_ Hdig].
  assert (Hf : fexp prec emax (Zdigits2 (Zpos (Pos.iter xO m k)) + e) - e
               = Zpos k).
  { simpl Zdigits2. rewrite Hdig, Pos2Z.inj_add, Hd.
    unfold fexp, emin, prec, emax. lia. }
  assert (Hf2 : fexp prec emax (Zdigits2 (Zpos m) + (e + Zpos k))
                - (e + Zpos k) = 0).
  { simpl Zdigits2. rewrite Hd. unfold fexp, emin, prec, emax. lia. }
  unfold binary_round_aux, shr_fexp.
  rewrite Hf. cbn [shr shr_record_of_loc]. rewrite shr_exact.
  cbn [shr_m loc_of_shr_record round_nearest_even].
  rewrite Hf2. cbn [shr shr_record_of_loc shr_m].
  replace (e + Zpos k <=? emax - prec) with true; [reflexivity|].
  symmetry. apply Z.leb_le. unfold emax, prec. lia.
Qed.

(** [q * 2^52] at exponent [-52] rounds to the binary64 number of [q]. *)
Lemma binary_round_scaled (s : bool) (q : positive) :
  Zpos q < 2 ^ 52 ->
  binary_round prec emax s (Pos.iter xO q 52) (-52)
  = binary_round prec emax s q 0.
Proof.
  intros Hq. rewrite (binary_round_small s q Hq).
  assert (Hd : Zpos (digits2_pos q) <= 52) by (apply digits2_pos_le; lia).
  destruct (iter_xO_spec 52 q) as [_ Hdig52].
  unfold binary_round. rewrite Hdig52.
  assert (Hf : fexp prec emax (Zpos (digits2_pos q + 52) + -52)
               = Zpos (digits2_pos q) - 53).
  { rewrite Pos2Z.inj_add. unfold fexp, emin, prec, emax. lia. }
  rewrite Hf. unfold shl_align.
  remember (Zpos (digits2_pos q) - 53 - -52) as t eqn:Ht.
  destruct t as [|t|t]; try lia.
  - assert (Hd1 : Zpos (digits2_pos q) = 1) by lia.
    rewrite Hd1. change (Z.to_pos (53 - 1)) with 52%positive.
    change (1 - 53) with (-52).
    apply binary_round_aux_exact; [|lia].
    rewrite Hdig52, Pos2Z.inj_add, Hd1. reflexivity.
  - remember (53 - Zpos (digits2_pos q)) as k eqn:Hk.
    destruct k as [|k|k]; try lia.
    cbn [Z.to_pos].
    assert (H52 : (52 = t + k)%positive) by lia.
    rewrite H52, Pos.iter_add.
    destruct (iter_xO_spec k q) as [_ Hdigk].
    rewrite binary_round_aux_shift.
    + f_equal. lia.
    + rewrite Hdigk, Pos2Z.inj_add. lia.
    + lia.
    + lia.
Qed.

Lemma binary_normalize_scaled (z : Z) :
  - 2 ^ 52 < z < 2 ^ 52 ->
  binary_normalize prec emax (z * 2 ^ 52) (-52) false = double_of_int z.
Proof.
  intros Hz. unfold double_of_int.
  destruct z as [|q|q].
  - reflexivity.
  - destruct (iter_xO_spec 52 q) as [Hv _].
    replace (Zpos q * 2 ^ 52) with (Zpos (Pos.iter xO q 52))
      by (rewrite Hv; reflexivity).
    cbn [binary_normalize]. apply binary_round_scaled. lia.
  - destruct (iter_xO_spec 52 q) as [Hv _].
    replace (Zneg q * 2 ^ 52) with (Zneg (Pos.iter xO q 52))
      by (rewrite <- !Pos2Z.opp_pos, Hv; lia).
    cbn [binary_normalize]. apply binary_round_scaled. lia.
Qed.

(** The mantissa of an integer, aligned at exponent [-52]. *)
Lemma shl_align_int (p : positive) :
  Zpos p < 2 ^ 52 ->
  Zpos (fst (shl_align (Pos.iter xO p (Z.to_pos (53 - Zpos (digits2_pos p))))
                       (Zpos (digits2_pos p) - 53) (-52)))
  = Zpos p * 2 ^ 52.
Proof.
  intros Hp.
  assert (Hd : Zpos (digits2_pos p) <= 52) by (apply digits2_pos_le; lia).
  remember (53 - Zpos (digits2_pos p)) as k eqn:Hk.
  destruct k as [|k|k]; try lia. cbn [Z.to_pos].
  destruct (iter_xO_spec k p) as [Hv _].
  unfold shl_align.
  remember (-52 - (Zpos (digits2_pos p) - 53)) as t eqn:Ht.
  destruct t as [|t|t]; cbn [fst]; try lia.
  - rewrite Hv. f_equal. f_equal. lia.
  - destruct (iter_xO_spec t (Pos.iter xO p k)) as [Hv2 _].
    rewrite Hv2, Hv, <- Z.mul_assoc, <- Z.pow_add_r by lia.
    f_equal. f_equal. lia.
Qed.

(** Subtracting 1.0 from the binary64 number of an integer is exact. *)
Lemma double_sub_one (n : Z) :
  - 2 ^ 52 + 1 < n < 2 ^ 52 ->
  double_sub (double_of_int n) (double_of_int 1) = double_of_int (n - 1).
Proof.
  intros Hn.
  destruct n as [|p|p]; [reflexivity| |].
  - unfold double_of_int at 1. cbn [binary_normalize].
    rewrite binary_round_small by lia.
    assert (Hd : Zpos (digits2_pos p) <= 52) by (apply digits2_pos_le; lia).
    rewrite double_of_int_1. unfold double_sub, SFsub.
    rewrite Z.min_r by lia. rewrite shl_align_int by lia.
    change (Zpos (fst (shl_align 4503599627370496 (-52) (-52)))) with (2 ^ 52).
    cbn [cond_Zopp].
    replace (Zpos p * 2 ^ 52 - 2 ^ 52) with ((Zpos p - 1) * 2 ^ 52) by lia.
    apply binary_normalize_scaled. lia.
  - unfold double_of_int at 1. cbn [binary_normalize].
    rewrite binary_round_small by lia.
    assert (Hd : Zpos (digits2_pos p) <= 52) by (apply digits2_pos_le; lia).
    rewrite double_of_int_1. unfold double_sub, SFsub.
    rewrite Z.min_r by lia. rewrite shl_align_int by lia.
    change (Zpos (fst (shl_align 4503599627370496 (-52) (-52)))) with (2 ^ 52).
    cbn [cond_Zopp].
    replace (- (Zpos p * 2 ^ 52) - 2 ^ 52) with ((Zneg p - 1) * 2 ^ 52) by lia.
    apply binary_normalize_scaled. lia.
Qed.

(** The binary64 number [p / 2^k]: a mantissa [m] and an exponent [e] of
    that value. *)
Lemma binary_round_dyadic (s : bool) (p : positive) (k : Z) :
  Zpos p < 2 ^ 53 -> 0 <= k <= 1000 ->
  exists m e,
    binary_round prec emax s p (- k) = S754_finite s m e /\
    e <= - k /\ Zpos m = Zpos p * 2 ^ (- e - k).
Proof.
  intros Hp Hk.
  assert (Hd : Zpos (digits2_pos p) <= 53) by (apply digits2_pos_le; lia).
  unfold binary_round.
  assert (Hf : fexp prec emax (Zpos (digits2_pos p) + - k)
               = Zpos (digits2_pos p) - k - 53).
  { unfold fexp, emin, prec, emax. lia. }
  rewrite Hf. unfold shl_align.
  remember (Zpos (digits2_pos p) - k - 53 - - k) as t eqn:Ht.
  destruct t as [|t|t]; try lia.
  - exists p, (- k). split; [|split].
    + apply binary_round_aux_exact; lia.
    + lia.
    + replace (- - k - k) with 0 by lia. lia.
  - destruct (iter_xO_spec t p) as [Hv Hdig].
    exists (Pos.iter xO p t), (Zpos (digits2_pos p) - k - 53).
    split; [|split].
    + apply binary_round_aux_exact; [rewrite Hdig, Pos2Z.inj_add|]; lia.
    + lia.
    + rewrite Hv. f_equal. f_equal. lia.
Qed.

(** The conversion to an integer discards the fraction of [m / 2^k], toward
    zero. *)
Lemma double_trunc_dyadic (m k : Z) :
  - 2 ^ 53 < m < 2 ^ 53 -> 0 <= k <= 1000 ->
  double_trunc (double_of_dyadic m k) = Some (Z.quot m (2 ^ k)).
Proof.
  intros Hm Hk. unfold double_of_dyadic.
  assert (H2k : 0 < 2 ^ k) by (apply Z.pow_pos_nonneg; lia).
  assert (Hdiv : forall (p mm : positive) (e : Z),
             e <= - k -> Zpos mm = Zpos p * 2 ^ (- e - k) ->
             (if 0 <=? e then Zpos mm * 2 ^ e else Zpos mm / 2 ^ (- e))
             = Zpos p / 2 ^ k).
  { intros p mm e He Hv.
    assert (0 < 2 ^ (- e - k)) by (apply Z.pow_pos_nonneg; lia).
    destruct (Z.leb_spec 0 e) as [He0|He0].
    - assert (e = 0) as -> by lia. assert (k = 0) as -> by lia.
      change (2 ^ (- 0 - 0)) with 1 in Hv. change (2 ^ 0) with 1.
      rewrite Z.div_1_r. lia.
    - rewrite Hv.
      replace (2 ^ (- e)) with (2 ^ (- e - k) * 2 ^ k)
        by (rewrite <- Z.pow_add_r by lia; f_equal; lia).
      rewrite (Z.mul_comm (Zpos p)).
      rewrite Z.div_mul_cancel_l by lia. reflexivity. }
  destruct m as [|p|p].
  - rewrite Z.quot_0_l by lia. reflexivity.
  - cbn [binary_normalize].
    destruct (binary_round_dyadic false p k) as (mm & e & -> & He & Hv);
      [lia|lia|].
    unfold double_trunc. cbn [cond_Zopp]. f_equal.
    rewrite Z.quot_div_nonneg by lia. apply Hdiv; assumption.
  - cbn [binary_normalize].
    destruct (binary_round_dyadic true p k) as (mm & e & -> & He & Hv);
      [lia|lia|].
    unfold double_trunc. cbn [cond_Zopp]. f_equal.
    change (Zneg p) with (- Zpos p). rewrite Z.quot_opp_l by lia.
    rewrite Z.quot_div_nonneg by lia. f_equal. apply Hdiv; assumption.
Qed.

End ArithmeticFacts.

Import ArithmeticFacts.

(** ** More on the constructors and the reports of the integrators *)

Module ConstructorFacts.

Import DPGFacts.

Local Open Scope Z_scope.

Section Constructors.

Context {IP : Type}.
Implicit Types (c : CoefficientFunction IP).
Implicit Types (coeffs : list (CoefficientFunction IP)).




(** X3: a real index argument that is not an integer is cut toward zero:
    the constants [m1 / 2^k1] and [m2 / 2^k2] give the indices
    [m1 quot 2^k1 - 1] and [m2 quot 2^k2 - 1]. *)
Theorem index_argument_is_truncated (ip : IP) (v : Variant) (d : Z)
        (m1 k1 m2 k2 : Z) c3 coeffs (w : World) :
  - 2 ^ 53 < m1 < 2 ^ 53 -> 0 <= k1 <= 1000 ->
  - 2 ^ 53 < m2 < 2 ^ 53 -> 0 <= k2 <= 1000 ->
  INT_MIN < Z.quot m1 (2 ^ k1) <= INT_MAX ->
  INT_MIN < Z.quot m2 (2 ^ k2) <= INT_MAX ->
  exists this w',
    new_Integrator v d ip
      (ConstantCoefficientFunction (double_of_dyadic m1 k1)
       :: ConstantCoefficientFunction (double_of_dyadic m2 k2) :: c3 :: coeffs) w
    = Ok (this, w') /\
    GetInd1 (base this) = Z.quot m1 (2 ^ k1) - 1 /\
    GetInd2 (base this) = Z.quot m2 (2 ^ k2) - 1.
Proof.
  intros Hm1 Hk1 Hm2 Hk2 Hq1 Hq2.
  assert (Hres : forall m k, - 2 ^ 53 < m < 2 ^ 53 -> 0 <= k <= 1000 ->
            INT_MIN < Z.quot m (2 ^ k) <= INT_MAX ->
            resolve_index_in_mode false ip
              (ConstantCoefficientFunction (double_of_dyadic m k))
            = Ok (Z.quot m (2 ^ k) - 1)).
  { intros m k Hm Hk Hq. unfold resolve_index_in_mode, to_int, int_of_double.
    cbn [EvaluateConst ConstantCoefficientFunction].
    rewrite double_trunc_dyadic by assumption.
    destruct Hq as [Hlo Hhi].
    assert (Hlo' : INT_MIN <= Z.quot m (2 ^ k)) by lia.
    apply Z.leb_le in Hlo', Hhi. rewrite Hlo', Hhi. cbn [andb].
    unfold int_sub. rewrite wrap_int_id; [reflexivity|].
    apply Z.leb_le in Hhi. unfold INT_MIN, INT_MAX in *. lia. }
  eexists _, _. split.
  - apply (new_Integrator_resolved ip v d _
             (ConstantCoefficientFunction (double_of_dyadic m1 k1))
             (ConstantCoefficientFunction (double_of_dyadic m2 k2)) c3
             (Z.quot m1 (2 ^ k1) - 1) (Z.quot m2 (2 ^ k2) - 1));
      try reflexivity; apply Hres; assumption.
  - split; reflexivity.
Qed.

(** X4: of complex index arguments the real part alone counts: the complex
    constants [i+1 + b1 i] and [j+1 + b2 i] give the indices [i] and [j]
    whatever the imaginary parts [b1] and [b2] are. *)
Theorem imaginary_part_of_index_is_ignored (ip : IP) (v : Variant)
        (d ncomp i j : Z) (b1 b2 : double) c3 coeffs (w : World) :
  ncomp <= INT_MAX -> 0 <= i < ncomp -> 0 <= j < ncomp ->
  exists this w',
    new_Integrator v d ip
      (ConstantCoefficientFunctionC (mkComplex (double_of_int (i + 1)) b1)
       :: ConstantCoefficientFunctionC (mkComplex (double_of_int (j + 1)) b2)
       :: c3 :: coeffs) w
    = Ok (this, w') /\
    GetInd1 (base this) = i /\ GetInd2 (base this) = j.
Proof.
  intros Hn Hi Hj.
  assert (Hres : forall n b, 0 <= n < ncomp ->
            resolve_index_in_mode true ip
              (ConstantCoefficientFunctionC (mkComplex (double_of_int (n + 1)) b))
            = Ok n).
  { intros n b Hnb. rewrite resolve_complex_constant by (unfold INT_MIN; lia).
    f_equal. lia. }
  eexists _, _. split.
  - apply (new_Integrator_resolved ip v d _
             (ConstantCoefficientFunctionC (mkComplex (double_of_int (i + 1)) b1))
             (ConstantCoefficientFunctionC (mkComplex (double_of_int (j + 1)) b2))
             c3 i j);
      try reflexivity; apply Hres; assumption.
  - split; reflexivity.
Qed.

(** X5: the eight classes have eight different names. *)
Theorem Name_identifies_class (v v' : Variant) :
  Name_of v = Name_of v' -> v = v'.
Proof. destruct v, v'; cbn; intros H; try reflexivity; discriminate H. Qed.

(** X6: the reports of an integrator agree with each other in all eight
    classes: [BoundaryForm()] is true exactly when [VB()] is [BND]; where
    the class gives dimensions, [DimSpace()] is [D] and [DimElement()] is one
    less for a boundary form and the same otherwise; and [IsSymmetric()] is
    never "maybe". *)
Theorem reports_are_consistent (this : Integrator IP) :
  (BoundaryForm this = true <-> VB this = BND) /\
  (forall de ds, DimElement this = Some de -> DimSpace this = Some ds ->
                 ds = D this /\ de = if BoundaryForm this then ds - 1 else ds) /\
  (IsSymmetric this = xtrue \/ IsSymmetric this = xfalse).
Proof.
  unfold BoundaryForm, VB, DimElement, DimSpace, IsSymmetric.
  split; [|split].
  - destruct (variant this); split; intros H; try reflexivity; discriminate H.
  - intros de ds. destruct (variant this); intros [= <-] [= <-]; auto.
  - destruct (IsComplex (coeff this)); cbn; auto.
Qed.

(** X7: a constructed FluxTrace integrator has the name "FluxTrace", is a
    volume form ([BoundaryForm()] false, [VB()] [VOL]), and is symmetric
    exactly when its third coefficient is real-valued. *)
Theorem FluxTrace_reports (ip : IP) (d : Z) coeffs c (w w' : World)
        (this : Integrator IP) :
  coeffs !! 2%nat = Some c ->
  new_Integrator FluxTrace d ip coeffs w = Ok (this, w') ->
  Name this = "FluxTrace"%string /\
  BoundaryForm this = false /\ VB this = VOL /\
  IsSymmetric this = (if IsComplex c then xfalse else xtrue).
Proof.
  intros Hc Hnew.
  rewrite (IsSymmetric_third_coefficient ip FluxTrace d coeffs c w this w' Hc Hnew).
  destruct (new_Integrator_inv _ _ _ _ _ _ _ Hnew) as (Hv & _).
  unfold Name, BoundaryForm, VB. rewrite Hv.
  repeat split. destruct (IsComplex c); reflexivity.
Qed.

(** X8: given five coefficients (or more) of which the first evaluates as
    a constant to a [double] with an [int] value [n], the constructor of
    [NeumannVolume] returns, whether that coefficient is complex-valued or
    not and whatever [D] is; the object holds the first five coefficients in
    their order and the index [n - 1], and the one line written shows [n]. *)
Theorem NeumannVolume_constructed (d : Z) coeffs c0 c1 c2 c3 c4
        (x : double) (n : Z) (w : World) :
  coeffs !! 0%nat = Some c0 -> coeffs !! 1%nat = Some c1 ->
  coeffs !! 2%nat = Some c2 -> coeffs !! 3%nat = Some c3 ->
  coeffs !! 4%nat = Some c4 ->
  EvaluateConst c0 = Ok x -> int_of_double x = Some n ->
  new_NeumannVolume d coeffs w =
  Ok (mkNeumannVolume d c0 c1 c2 c3 c4 (int_sub n 1),
      mkWorld (cout w ++ [OutStr "Using DPG source integrator ";
                          OutStr "NeumannVolume"; OutStr " on component ";
                          OutInt n; OutEndl])
              (gridfunctions w)).
Proof.
  intros H0 H1 H2 H3 H4 Hx Hn.
  unfold new_NeumannVolume, bind, lift, Array_get, to_int, print, ret.
  rewrite H0, H1, H2, H3, H4, Hx, Hn.
  cbn [cout gridfunctions indx NeumannVolume_Name].
  rewrite int_add_sub_1 by (eapply int_of_double_range; eassumption).
  reflexivity.
Qed.

End Constructors.

(** *** The statements on concrete arguments *)



(** The arguments 2.5 and -1.5: the indices 1 and -2. *)
Lemma index_argument_is_truncated_witness :
  exists this w',
    new_Integrator TraceTrace 2 tt
      [ConstantCoefficientFunction (double_of_dyadic 5 1);
       ConstantCoefficientFunction (double_of_dyadic (-3) 1);
       Samples.constant 1] Samples.empty_world
    = Ok (this, w') /\
    GetInd1 (base this) = 1 /\ GetInd2 (base this) = -2.
Proof.
  apply (index_argument_is_truncated tt TraceTrace 2 5 1 (-3) 1
           (Samples.constant 1) [] Samples.empty_world);
    try lia; vm_compute; split; congruence.
Defined.

Lemma imaginary_part_of_index_is_ignored_witness :
  exists this w',
    new_Integrator GradGrad 3 tt
      [ConstantCoefficientFunctionC
         (mkComplex (double_of_int 1) (double_of_int 9));
       ConstantCoefficientFunctionC
         (mkComplex (double_of_int 2) (double_of_int (-4)));
       Samples.constant 1] Samples.empty_world
    = Ok (this, w') /\
    GetInd1 (base this) = 0 /\ GetInd2 (base this) = 1.
Proof.
  apply (imaginary_part_of_index_is_ignored tt GradGrad 3 2 0 1
           (double_of_int 9) (double_of_int (-4))
           (Samples.constant 1) [] Samples.empty_world);
    unfold INT_MAX; lia.
Defined.

Lemma Name_identifies_class_witness : RobinVolume = RobinVolume.
Proof. apply (Name_identifies_class RobinVolume RobinVolume). reflexivity. Defined.

Lemma FluxTrace_reports_witness :
  Name (Samples.integrator_1_2 FluxTrace) = "FluxTrace"%string /\
  BoundaryForm (Samples.integrator_1_2 FluxTrace) = false /\
  VB (Samples.integrator_1_2 FluxTrace) = VOL /\
  IsSymmetric (Samples.integrator_1_2 FluxTrace) = xtrue.
Proof.
  apply (FluxTrace_reports tt 2
           [Samples.constant 1; Samples.constant 2; Samples.constant 1]
           (Samples.constant 1) Samples.empty_world
           (mkWorld (greeting "FluxTrace" 0 1) ∅)
           (Samples.integrator_1_2 FluxTrace)).
  - reflexivity.
  - vm_compute. reflexivity.
Defined.

Lemma NeumannVolume_constructed_witness :
  new_NeumannVolume 3
    [Samples.constant 1; Samples.constant 1; Samples.constant 1;
     Samples.constant 1; Samples.constant 1] Samples.empty_world
  = Ok (MoreSamples.neumann_3D,
        mkWorld ([] ++ [OutStr "Using DPG source integrator ";
                        OutStr "NeumannVolume"; OutStr " on component ";
                        OutInt 1; OutEndl]) ∅).
Proof.
  apply (NeumannVolume_constructed 3
           [Samples.constant 1; Samples.constant 1; Samples.constant 1;
            Samples.constant 1; Samples.constant 1]
           (Samples.constant 1) (Samples.constant 1) (Samples.constant 1)
           (Samples.constant 1) (Samples.constant 1) (double_of_int 1) 1
           Samples.empty_world);
    vm_compute; reflexivity.
Defined.

End ConstructorFacts.

(** ** More on the numproc *)

Module ExtractionFacts.

Import GetComponentFacts.

(** X9: with the flag [comp] set to the integer [k], the constructor stores
    the index [k - 1] (the subtraction on [double] is exact), the two grid
    functions named by the string flags and the two define flags, and leaves
    the state as it is. *)
Theorem component_flag_selects_component (flags : Flags) (w : World) (k : Z) :
  (INT_MIN < k <= INT_MAX)%Z ->
  numflags flags !! "comp" = Some (double_of_int k) ->
  is_Some (gridfunctions w !! GetStringFlag flags "compoundgf" None) ->
  is_Some (gridfunctions w !! GetStringFlag flags "componentgf" None) ->
  new_NumProcGetComponent flags w =
  Ok (mkNumProcGetComponent (GetStringFlag flags "compoundgf" None)
        (GetStringFlag flags "componentgf" None) (k - 1)
        (GetDefineFlag flags "re") (GetDefineFlag flags "im"), w).
Proof.
  intros Hk Hflag [G1 Hg1] [G2 Hg2].
  unfold new_NumProcGetComponent, GetGridFunction, lift, ret, bind.
  rewrite Hg1. unfold GetNumFlag. rewrite Hflag. cbn [default id].
  rewrite double_sub_one by (unfold INT_MIN, INT_MAX in Hk; lia).
  rewrite to_int_double_of_int by (unfold INT_MIN, INT_MAX in *; lia).
  rewrite Hg2. reflexivity.
Qed.

(** *** What [Do] leaves as it is *)

Lemma length_unflatten (k : nat) :
  forall l : list double, length l = (2 * k)%nat -> length (unflatten l) = k.
Proof.
  induction k as [|k IH]; intros l Hl.
  - destruct l; [reflexivity | discriminate].
  - destruct l as [|a [|b l]]; cbn [length] in Hl; try lia.
    cbn [unflatten length]. rewrite IH; [reflexivity | lia].
Qed.

Lemma FVDouble_set_shape (v v' : BaseVector) (i : nat) (x : double) :
  FVDouble_set v i x = Ok v' ->
  length (FVDouble v') = length (FVDouble v) /\ same_kind v' v = true.
Proof.
  destruct v as [l|l]; cbn [FVDouble_set].
  - destruct (decide (i < length l)%nat); [|discriminate].
    intros [= <-]. cbn. rewrite length_insert. auto.
  - destruct (l !! (i / 2)%nat) as [c|]; [|discriminate].
    intros [= <-]. cbn [FVDouble same_kind].
    rewrite !length_flatten, length_insert. auto.
Qed.

Lemma BaseVector_assign_shape (dst src v : BaseVector) :
  BaseVector_assign dst src = Ok v ->
  length (FVDouble v) = length (FVDouble dst) /\ same_kind v dst = true.
Proof.
  unfold BaseVector_assign.
  destruct (decide (length (FVDouble dst) = length (FVDouble src))) as [E|];
    [|discriminate].
  destruct dst as [l|l]; intros [= <-]; cbn [FVDouble same_kind] in *.
  - auto.
  - rewrite length_flatten in *.
    rewrite length_flatten, (length_unflatten (length l)); auto.
Qed.

Lemma same_kind_trans (a b c : BaseVector) :
  same_kind a b = true -> same_kind b c = true -> same_kind a c = true.
Proof. destruct a, b, c; cbn; congruence. Qed.

Lemma same_kind_refl (a : BaseVector) : same_kind a a = true.
Proof. destruct a; reflexivity. Qed.

Lemma vector_changed_store (gf : string) (w : World) (G : GridFunction)
      (v : BaseVector) :
  gridfunctions w !! gf = Some G ->
  length (FVDouble v) = length (FVDouble (GetVector G)) ->
  same_kind v (GetVector G) = true ->
  vector_changed gf w
    (mkWorld (cout w) (<[gf := SetVector G v]> (gridfunctions w))).
Proof.
  intros HG Hlen Hkind. split.
  - intros g Hg. cbn. apply lookup_insert_ne. congruence.
  - exists G, v. cbn. rewrite lookup_insert_eq. auto.
Qed.

Lemma vector_changed_trans (gf : string) (w1 w2 w3 : World) :
  vector_changed gf w1 w2 -> vector_changed gf w2 w3 ->
  vector_changed gf w1 w3.
Proof.
  intros [H12 (G & v & Ha & Hb & Hlen & Hk)]
         [H23 (G' & v' & Ha' & Hb' & Hlen' & Hk')].
  split.
  - intros g Hg. rewrite H23, H12 by assumption. reflexivity.
  - exists G, v'. rewrite Hb in Ha'. injection Ha' as <-.
    rewrite SetVector_SetVector in Hb'.
    rewrite GetVector_SetVector in Hlen', Hk'.
    repeat split; try assumption.
    + congruence.
    + eapply same_kind_trans; eassumption.
Qed.

Lemma vector_changed_from (gf : string) (w w1 w2 : World) :
  gridfunctions w1 = gridfunctions w ->
  vector_changed gf w1 w2 -> vector_changed gf w w2.
Proof. unfold vector_changed. intros ->. auto. Qed.

Lemma loop_body_changes_vector (part : Complex -> double)
      (this : NumProcGetComponent) (i : nat) (w w' : World) :
  loop_body part this i w = Ok (tt, w') ->
  cout w' = cout w /\ vector_changed (gf2 this) w w'.
Proof.
  unfold loop_body, deref, lift, store, bind.
  destruct (gridfunctions w !! gf1 this) as [g1|]; [|discriminate].
  destruct (GetComponent g1 (ind this)) as [comp|]; [|discriminate].
  destruct (FVComplex (GetVector comp)) as [src|]; [|discriminate].
  destruct (FlatVector_get src i) as [c|]; [|discriminate].
  destruct (gridfunctions w !! gf2 this) as [g2|] eqn:Hg2; [|discriminate].
  destruct (FVDouble_set (GetVector g2) i (part c)) as [v|] eqn:Hset;
    [|discriminate].
  intros [= <-]. destruct (FVDouble_set_shape _ _ _ _ Hset) as [Hlen Hk].
  split; [reflexivity|]. apply vector_changed_store; assumption.
Qed.

Lemma for_loop_changes_vector (part : Complex -> double)
      (this : NumProcGetComponent) (fuel : nat) :
  forall (i : nat) (w w' : World),
    for_loop fuel (loop_cond this) (loop_body part this) i w = Ok (tt, w') ->
    cout w' = cout w /\ vector_changed (gf2 this) w w'.
Proof.
  induction fuel as [|fuel IH]; intros i w w'; cbn [for_loop].
  - discriminate.
  - unfold bind at 1. unfold loop_cond at 1. unfold deref, ret, bind at 1.
    destruct (gridfunctions w !! gf2 this) as [g2|] eqn:Hg2; [|discriminate].
    destruct (bool_decide (i < length (FVDouble (GetVector g2)))%nat).
    + unfold bind.
      destruct (loop_body part this i w) as [[[] w1]|] eqn:Hbody;
        [|discriminate].
      intros Hrest.
      destruct (loop_body_changes_vector _ _ _ _ _ Hbody) as [Hc1 Hv1].
      destruct (IH _ _ _ Hrest) as [Hc2 Hv2]. split; [congruence|].
      eapply vector_changed_trans; eassumption.
    + intros [= <-]. split; [reflexivity|]. split; [reflexivity|].
      exists g2, (GetVector g2). rewrite SetVector_GetVector.
      repeat split; auto using same_kind_refl.
Qed.

(** X10: whatever the state and the flags are, a [Do] that returns has
    only added to [cout] and changed nothing but the vector of the
    destination grid function: every other grid function, the compound one
    included, is as before, and the destination has kept its class name, its
    components, the kind (real or complex) and the size of its vector. *)
Theorem Do_changes_destination_vector_only (fuel : nat)
        (this : NumProcGetComponent) (w w' : World) :
  Do fuel this w = Ok (tt, w') ->
  (exists items, cout w' = cout w ++ items) /\
  vector_changed (gf2 this) w w'.
Proof.
  unfold Do. unfold bind at 1. unfold deref at 1.
  destruct (gridfunctions w !! gf2 this) as [g2|] eqn:Hg2; [|discriminate].
  unfold bind at 1. unfold print at 1.
  destruct (re this); [|destruct (im this)].
  - unfold bind at 1, print at 1. cbn [cout gridfunctions]. intros Hloop.
    apply for_loop_changes_vector in Hloop. destruct Hloop as [Hc Hv].
    split.
    + rewrite Hc. cbn [cout]. rewrite <- app_assoc. eauto.
    + eapply vector_changed_from; [|exact Hv]. reflexivity.
  - unfold bind at 1, print at 1. cbn [cout gridfunctions]. intros Hloop.
    apply for_loop_changes_vector in Hloop. destruct Hloop as [Hc Hv].
    split.
    + rewrite Hc. cbn [cout]. rewrite <- app_assoc. eauto.
    + eapply vector_changed_from; [|exact Hv]. reflexivity.
  - unfold print, deref, lift, store, bind. cbn [cout gridfunctions].
    destruct (gridfunctions w !! gf1 this) as [g1|]; [|discriminate].
    destruct (GetComponent g1 (ind this)) as [comp|]; [|discriminate].
    cbn [cout gridfunctions]. rewrite Hg2.
    destruct (BaseVector_assign (GetVector g2) (GetVector comp)) as [v|] eqn:Ha;
      [|discriminate].
    intros [= <-]. destruct (BaseVector_assign_shape _ _ _ Ha) as [Hlen Hk].
    split.
    + cbn [cout]. rewrite <- app_assoc. eauto.
    + split.
      * intros g Hg. cbn. apply lookup_insert_ne. congruence.
      * exists g2, v. cbn. rewrite lookup_insert_eq. auto.
Qed.

(** *** Destinations of other sizes *)

Section Loops.

Variable part : Complex -> double.
Variable this : NumProcGetComponent.
Variables (G1 G2 comp : GridFunction) (src : list Complex).
Hypothesis Hcomp : GetComponent G1 (ind this) = Ok comp.
Hypothesis Hsrc : GetVector comp = ComplexVector src.
Hypothesis Hne : gf1 this ≠ gf2 this.

(** The loop over a destination that is not longer than the component. *)
Lemma copy_loop_prefix (n : nat) :
  forall (i fuel : nat) (d : list double) (w : World),
    (i + n = length d)%nat -> (length d <= length src)%nat -> (n < fuel)%nat ->
    gridfunctions w !! gf1 this = Some G1 ->
    gridfunctions w !! gf2 this = Some (SetVector G2 (RealVector d)) ->
    for_loop fuel (loop_cond this) (loop_body part this) i w =
    Ok (tt, mkWorld (cout w)
              (<[gf2 this := SetVector G2
                   (RealVector (take i d ++ map part (take n (drop i src))))]>
                 (gridfunctions w))).
Proof.
  induction n as [|n IH]; intros i fuel d w Hi Hd Hfuel Hg1 Hg2.
  - destruct fuel as [|fuel]; [lia|].
    cbn [for_loop]. unfold loop_cond, deref, ret, bind. rewrite Hg2.
    rewrite GetVector_SetVector. cbn [FVDouble].
    rewrite bool_decide_eq_false_2 by lia.
    rewrite take_ge by lia. cbn [take map]. rewrite app_nil_r.
    rewrite insert_id by assumption. destruct w; reflexivity.
  - destruct fuel as [|fuel]; [lia|].
    assert (Hlt : (i < length src)%nat) by lia.
    destruct (lookup_lt_is_Some_2 src i Hlt) as [c Hc].
    cbn [for_loop]. unfold loop_cond, deref, ret, bind.
    rewrite Hg2, GetVector_SetVector. cbn [FVDouble].
    rewrite bool_decide_eq_true_2 by lia.
    unfold loop_body, deref, lift, bind. rewrite Hg1, Hcomp, Hsrc.
    cbn [FVComplex].
    unfold FlatVector_get, Array_get. rewrite Hc, Hg2.
    rewrite GetVector_SetVector. cbn [FVDouble_set].
    rewrite decide_True by lia. unfold store. rewrite SetVector_SetVector.
    rewrite (IH (S i) fuel (<[i:=part c]> d)); cbn [cout gridfunctions].
    + rewrite insert_insert_eq. do 3 f_equal.
      rewrite (drop_S src c i Hc). cbn [take map].
      rewrite (take_S_r (<[i:=part c]> d) i (part c))
        by (apply list_lookup_insert_eq; lia).
      rewrite take_insert_ge by lia. rewrite <- app_assoc. reflexivity.
    + rewrite length_insert. lia.
    + rewrite length_insert. assumption.
    + lia.
    + rewrite lookup_insert_ne by (intros E; apply Hne; symmetry; exact E).
      assumption.
    + apply lookup_insert_eq.
Qed.


End Loops.

Section Projections.

Variable this : NumProcGetComponent.
Variables (G1 G2 comp : GridFunction) (src : list Complex) (w : World).
Hypothesis Hg1 : gridfunctions w !! gf1 this = Some G1.
Hypothesis Hcomp : GetComponent G1 (ind this) = Ok comp.
Hypothesis Hsrc : GetVector comp = ComplexVector src.
Hypothesis Hg2 : gridfunctions w !! gf2 this = Some G2.
Hypothesis Hne : gf1 this ≠ gf2 this.
Hypothesis Hflag : re this || im this = true.

(** With a projection flag, [Do] is the announcement, the line of the
    branch and the loop. *)
Lemma Do_projection_loop (fuel : nat) :
  Do fuel this w =
  for_loop fuel (loop_cond this) (loop_body (projection this) this) 0
    (mkWorld (cout w ++ announcement this (GetClassName G2)
                     ++ projection_line this) (gridfunctions w)).
Proof.
  unfold Do, deref, print, bind, projection, projection_line.
  rewrite Hg2. cbn [cout gridfunctions].
  destruct (re this); cbn [orb] in Hflag.
  - cbn [cout gridfunctions]. rewrite <- app_assoc. reflexivity.
  - rewrite Hflag. cbn [cout gridfunctions]. rewrite <- app_assoc.
    reflexivity.
Qed.

Lemma Do_projection (fuel : nat) (dst : list double) :
  GetVector G2 = RealVector dst -> (length dst <= length src)%nat ->
  (length dst < fuel)%nat ->
  Do fuel this w =
  Ok (tt, mkWorld (cout w ++ announcement this (GetClassName G2)
                        ++ projection_line this)
            (<[gf2 this := SetVector G2
                 (RealVector (map (projection this) (take (length dst) src)))]>
               (gridfunctions w))).
Proof.
  intros Hdst Hlen Hfuel. rewrite Do_projection_loop.
  rewrite (copy_loop_prefix (projection this) this G1 G2 comp src
             Hcomp Hsrc Hne (length dst) 0 fuel dst);
    cbn [cout gridfunctions]; try lia; try assumption.
  - rewrite take_0, drop_0. reflexivity.
  - rewrite <- Hdst, SetVector_GetVector. assumption.
Qed.

End Projections.

Lemma lookup_beside (g1 g2 : string) (G X : GridFunction)
      (gfs : gmap string GridFunction) :
  g1 ≠ g2 -> gfs !! g1 = Some G -> <[g2 := X]> gfs !! g1 = Some G.
Proof.
  intros Hne HG. rewrite lookup_insert_ne by (intros E; apply Hne; symmetry; exact E).
  exact HG.
Qed.

Section Sizes.

(** A numproc with a projection flag, the component [src] it reads, and a
    real destination [g2] beside the compound grid function [g1]. *)
Variables (g1 g2 : string) (n : Z) (re_flag im_flag : bool).
Variables (G1 comp : GridFunction) (src : list Complex).
Variables (cls : string) (comps : list GridFunction).
Variable gfs : gmap string GridFunction.
Hypothesis Hflag : re_flag || im_flag = true.
Hypothesis Hne : g1 ≠ g2.
Hypothesis Hg1 : gfs !! g1 = Some G1.
Hypothesis Hcomp : GetComponent G1 n = Ok comp.
Hypothesis Hsrc : GetVector comp = ComplexVector src.

(** X11: a real destination with fewer entries than the component (or as
    many) is filled with the parts of the first entries of the component,
    as many as the destination has; the loop is bounded by the size of the
    destination and [Do] returns. *)
Theorem Do_fills_shorter_destination (fuel : nat) (dst : list double)
        (out : list out_item) :
  (length dst <= length src)%nat -> (length dst < fuel)%nat ->
  Do fuel (mkNumProcGetComponent g1 g2 n re_flag im_flag)
     (mkWorld out (<[g2 := MkGridFunction cls (RealVector dst) comps]> gfs))
  = Ok (tt, mkWorld
              (out ++ announcement
                        (mkNumProcGetComponent g1 g2 n re_flag im_flag) cls
                   ++ projection_line
                        (mkNumProcGetComponent g1 g2 n re_flag im_flag))
              (<[g2 := MkGridFunction cls
                         (RealVector
                            (map (projection
                                    (mkNumProcGetComponent g1 g2 n re_flag im_flag))
                                 (take (length dst) src))) comps]> gfs)).
Proof.
  intros Hlen Hfuel.
  rewrite (Do_projection (mkNumProcGetComponent g1 g2 n re_flag im_flag)
             G1 (MkGridFunction cls (RealVector dst) comps) comp src
             (mkWorld out
                (<[g2 := MkGridFunction cls (RealVector dst) comps]> gfs))
             (lookup_beside g1 g2 G1 _ gfs Hne Hg1) Hcomp Hsrc
             (lookup_insert_eq gfs g2 _) Hne Hflag fuel dst eq_refl Hlen Hfuel).
  cbn [cout gridfunctions gf2 SetVector GetClassName].
  rewrite insert_insert_eq. reflexivity.
Qed.


(** X14: [Do] can be repeated: a second run after the first returns as
    well and leaves every grid function as the first run left it. *)
Theorem Do_twice (fuel : nat) (dst : list double) (out : list out_item) :
  (length dst <= length src)%nat -> (length dst < fuel)%nat ->
  exists w1 w2,
    Do fuel (mkNumProcGetComponent g1 g2 n re_flag im_flag)
       (mkWorld out (<[g2 := MkGridFunction cls (RealVector dst) comps]> gfs))
    = Ok (tt, w1) /\
    Do fuel (mkNumProcGetComponent g1 g2 n re_flag im_flag) w1 = Ok (tt, w2) /\
    gridfunctions w2 = gridfunctions w1.
Proof.
  intros Hlen Hfuel.
  pose (d1 := map (projection (mkNumProcGetComponent g1 g2 n re_flag im_flag))
                  (take (length dst) src)).
  assert (Hd1 : length d1 = length dst).
  { unfold d1. rewrite length_map, length_take. lia. }
  exists (mkWorld
            (out ++ announcement
                      (mkNumProcGetComponent g1 g2 n re_flag im_flag) cls
                 ++ projection_line
                      (mkNumProcGetComponent g1 g2 n re_flag im_flag))
            (<[g2 := MkGridFunction cls (RealVector d1) comps]> gfs)).
  eexists. split; [|split].
  - rewrite (Do_projection (mkNumProcGetComponent g1 g2 n re_flag im_flag)
               G1 (MkGridFunction cls (RealVector dst) comps) comp src
               (mkWorld out
                  (<[g2 := MkGridFunction cls (RealVector dst) comps]> gfs))
               (lookup_beside g1 g2 G1 _ gfs Hne Hg1) Hcomp Hsrc
               (lookup_insert_eq gfs g2 _) Hne Hflag fuel dst eq_refl Hlen Hfuel).
    cbn [cout gridfunctions gf2 SetVector GetClassName].
    rewrite insert_insert_eq. reflexivity.
  - apply (Do_projection (mkNumProcGetComponent g1 g2 n re_flag im_flag)
               G1 (MkGridFunction cls (RealVector d1) comps) comp src
               (mkWorld _
                  (<[g2 := MkGridFunction cls (RealVector d1) comps]> gfs))
               (lookup_beside g1 g2 G1 _ gfs Hne Hg1) Hcomp Hsrc
               (lookup_insert_eq gfs g2 _) Hne Hflag fuel d1 eq_refl); lia.
  - cbn [cout gridfunctions gf2 SetVector GetClassName].
    rewrite insert_insert_eq. rewrite Hd1. reflexivity.
Qed.

End Sizes.

(** X13: with a projection flag and a destination without entries, [Do]
    writes its two lines and returns with every grid function as it was; it
    does not look at the compound grid function or at the component index,
    which may be anything. *)
Theorem Do_on_empty_destination (fuel : nat) (this : NumProcGetComponent)
        (w : World) (G2 : GridFunction) :
  re this || im this = true ->
  gridfunctions w !! gf2 this = Some G2 ->
  FVDouble (GetVector G2) = [] ->
  Do (S fuel) this w =
  Ok (tt, mkWorld (cout w ++ announcement this (GetClassName G2)
                        ++ projection_line this)
                  (gridfunctions w)).
Proof.
  intros Hflag Hg2 Hempty.
  unfold Do, deref, print, bind, projection_line. rewrite Hg2.
  cbn [cout gridfunctions].
  assert (Hloop : forall part out,
    for_loop (S fuel) (loop_cond this) (loop_body part this) 0
             (mkWorld out (gridfunctions w))
    = Ok (tt, mkWorld out (gridfunctions w))).
  { intros part out. cbn [for_loop]. unfold loop_cond, deref, ret, bind.
    cbn [cout gridfunctions]. rewrite Hg2, Hempty. reflexivity. }
  destruct (re this); cbn [orb] in Hflag.
  - cbn [cout gridfunctions]. rewrite Hloop, <- app_assoc. reflexivity.
  - rewrite Hflag. cbn [cout gridfunctions].
    rewrite Hloop, <- app_assoc. reflexivity.
Qed.

Lemma zip_real_imag (src : list Complex) :
  zip_with mkComplex (map real src) (map imag src) = src.
Proof.
  induction src as [|[a b] src IH]; [reflexivity|].
  cbn. rewrite IH. reflexivity.
Qed.

(** X15: a numproc with the real flag into one destination followed by a
    numproc with the imaginary flag into another one leaves two real
    vectors that, put together entry by entry, are the complex entries of
    the component; the compound grid function is as before. *)
Theorem real_and_imaginary_parts_reassemble
        (fuel : nat) (g1 v1 v2 : string) (n : Z)
        (G1 comp : GridFunction) (src : list Complex)
        (cls1 cls2 : string) (comps1 comps2 : list GridFunction)
        (d1 d2 : list double) (out : list out_item)
        (gfs : gmap string GridFunction) :
  g1 ≠ v1 -> g1 ≠ v2 -> v1 ≠ v2 ->
  gfs !! g1 = Some G1 -> GetComponent G1 n = Ok comp ->
  GetVector comp = ComplexVector src ->
  length d1 = length src -> length d2 = length src ->
  (length src < fuel)%nat ->
  exists w' a b,
    (Do fuel (mkNumProcGetComponent g1 v1 n true false) ;;;
     Do fuel (mkNumProcGetComponent g1 v2 n false true))
      (mkWorld out
         (<[v1 := MkGridFunction cls1 (RealVector d1) comps1]>
            (<[v2 := MkGridFunction cls2 (RealVector d2) comps2]> gfs)))
    = Ok (tt, w') /\
    gridfunctions w' !! v1 = Some (MkGridFunction cls1 (RealVector a) comps1) /\
    gridfunctions w' !! v2 = Some (MkGridFunction cls2 (RealVector b) comps2) /\
    gridfunctions w' !! g1 = Some G1 /\
    zip_with mkComplex a b = src.
Proof.
  intros H1 H2 H12 Hg1 Hcomp Hsrc Hd1 Hd2 Hfuel.
  exists (mkWorld
            ((out ++ announcement (mkNumProcGetComponent g1 v1 n true false) cls1
                  ++ [OutStr ", REAL part"; OutEndl])
                 ++ announcement (mkNumProcGetComponent g1 v2 n false true) cls2
                 ++ [OutStr ", IMAG part"; OutEndl])
            (<[v2 := MkGridFunction cls2 (RealVector (map imag src)) comps2]>
               (<[v1 := MkGridFunction cls1 (RealVector (map real src)) comps1]>
                  (<[v2 := MkGridFunction cls2 (RealVector d2) comps2]> gfs)))),
         (map real src), (map imag src).
  split; [|repeat split].
  - unfold bind at 1.
    rewrite (Do_real_part (mkNumProcGetComponent g1 v1 n true false) G1
               (MkGridFunction cls1 (RealVector d1) comps1) comp src
               (mkWorld out
                  (<[v1 := MkGridFunction cls1 (RealVector d1) comps1]>
                     (<[v2 := MkGridFunction cls2 (RealVector d2) comps2]> gfs))))
      with (fuel := fuel) (dst := d1); try assumption; try reflexivity.
    + cbn [cout gridfunctions gf1 gf2 SetVector GetClassName].
      rewrite insert_insert_eq.
      rewrite (Do_imag_part (mkNumProcGetComponent g1 v2 n false true) G1
                 (MkGridFunction cls2 (RealVector d2) comps2) comp src)
        with (fuel := fuel) (dst := d2); try assumption; try reflexivity.
      * cbn [gridfunctions gf1]. rewrite !lookup_insert_ne by congruence.
        exact Hg1.
      * cbn [gridfunctions gf2]. rewrite lookup_insert_ne by congruence.
        apply lookup_insert_eq.
    + cbn [gridfunctions gf1]. rewrite !lookup_insert_ne by congruence.
      exact Hg1.
    + cbn [gridfunctions gf2]. apply lookup_insert_eq.
  - cbn [gridfunctions]. rewrite lookup_insert_ne by congruence.
    apply lookup_insert_eq.
  - cbn [gridfunctions]. apply lookup_insert_eq.
  - cbn [gridfunctions]. rewrite !lookup_insert_ne by congruence. exact Hg1.
  - apply zip_real_imag.
Qed.

(** *** The statements on concrete arguments *)

Lemma component_flag_selects_component_witness :
  new_NumProcGetComponent MoreSamples.flags_comp_2 Samples.world_uv =
  Ok (mkNumProcGetComponent
        (GetStringFlag MoreSamples.flags_comp_2 "compoundgf" None)
        (GetStringFlag MoreSamples.flags_comp_2 "componentgf" None) (2 - 1)
        (GetDefineFlag MoreSamples.flags_comp_2 "re")
        (GetDefineFlag MoreSamples.flags_comp_2 "im"), Samples.world_uv).
Proof.
  apply (component_flag_selects_component MoreSamples.flags_comp_2
           Samples.world_uv 2).
  - unfold INT_MIN, INT_MAX. lia.
  - vm_compute. reflexivity.
  - vm_compute. eexists. reflexivity.
  - vm_compute. eexists. reflexivity.
Defined.

(** The numproc of that witness: component 2 (index 1), imaginary part. *)
Example component_flag_2_im :
  new_NumProcGetComponent MoreSamples.flags_comp_2 Samples.world_uv =
  Ok (mkNumProcGetComponent "u" "v" 1 false true, Samples.world_uv).
Proof. vm_compute. reflexivity. Qed.

Lemma Do_changes_destination_vector_only_witness :
  (exists items,
      cout MoreSamples.world_after_re = cout Samples.world_uv ++ items) /\
  vector_changed "v" Samples.world_uv MoreSamples.world_after_re.
Proof.
  apply (Do_changes_destination_vector_only 3 (Samples.getcomp true false)
           Samples.world_uv MoreSamples.world_after_re).
  vm_compute. reflexivity.
Defined.

Lemma Do_fills_shorter_destination_witness :
  Do 2 (mkNumProcGetComponent "u" "v" 0 false true)
     (mkWorld [] (<["v" := MkGridFunction "L2HighOrderFESpace"
                             (RealVector [Samples.zero]) []]> Samples.others))
  = Ok (tt, mkWorld
              ([] ++ announcement (mkNumProcGetComponent "u" "v" 0 false true)
                                  "L2HighOrderFESpace"
                  ++ projection_line (mkNumProcGetComponent "u" "v" 0 false true))
              (<["v" := MkGridFunction "L2HighOrderFESpace"
                          (RealVector
                             (map (projection
                                     (mkNumProcGetComponent "u" "v" 0 false true))
                                  (take (length [Samples.zero]) Samples.entries1)))
                          []]> Samples.others)).
Proof.
  apply (Do_fills_shorter_destination "u" "v" 0 false true
           Samples.compound Samples.component1 Samples.entries1
           "L2HighOrderFESpace" [] Samples.others).
  - reflexivity.
  - discriminate.
  - vm_compute. reflexivity.
  - reflexivity.
  - reflexivity.
  - simpl. lia.
  - simpl. lia.
Defined.


(** No grid function "nowhere" and no component 8, but nothing to write. *)
Lemma Do_on_empty_destination_witness :
  Do 1 (mkNumProcGetComponent "nowhere" "v" 7 true false)
     (Samples.world_with (RealVector []))
  = Ok (tt, mkWorld
              (cout (Samples.world_with (RealVector []))
                 ++ announcement
                      (mkNumProcGetComponent "nowhere" "v" 7 true false)
                      (GetClassName
                         (MkGridFunction "L2HighOrderFESpace" (RealVector []) []))
                 ++ projection_line
                      (mkNumProcGetComponent "nowhere" "v" 7 true false))
              (gridfunctions (Samples.world_with (RealVector [])))).
Proof.
  apply (Do_on_empty_destination 0
           (mkNumProcGetComponent "nowhere" "v" 7 true false)
           (Samples.world_with (RealVector []))
           (MkGridFunction "L2HighOrderFESpace" (RealVector []) [])).
  - reflexivity.
  - vm_compute. reflexivity.
  - reflexivity.
Defined.

Lemma Do_twice_witness :
  exists w1 w2,
    Do 3 (mkNumProcGetComponent "u" "v" 0 true false)
       (mkWorld []
          (<["v" := MkGridFunction "L2HighOrderFESpace"
                      (RealVector [Samples.zero; Samples.zero]) []]>
             Samples.others))
    = Ok (tt, w1) /\
    Do 3 (mkNumProcGetComponent "u" "v" 0 true false) w1 = Ok (tt, w2) /\
    gridfunctions w2 = gridfunctions w1.
Proof.
  apply (Do_twice "u" "v" 0 true false
           Samples.compound Samples.component1 Samples.entries1
           "L2HighOrderFESpace" [] Samples.others).
  - reflexivity.
  - discriminate.
  - vm_compute. reflexivity.
  - reflexivity.
  - reflexivity.
  - simpl. lia.
  - simpl. lia.
Defined.

Lemma real_and_imaginary_parts_reassemble_witness :
  exists w' a b,
    (Do 3 (mkNumProcGetComponent "u" "v" 1 true false) ;;;
     Do 3 (mkNumProcGetComponent "u" "t" 1 false true))
      MoreSamples.world_uvt
    = Ok (tt, w') /\
    gridfunctions w' !! "v"
    = Some (MkGridFunction "L2HighOrderFESpace" (RealVector a) []) /\
    gridfunctions w' !! "t"
    = Some (MkGridFunction "L2HighOrderFESpace" (RealVector b) []) /\
    gridfunctions w' !! "u" = Some Samples.compound /\
    zip_with mkComplex a b = Samples.entries2.
Proof.
  apply (real_and_imaginary_parts_reassemble 3 "u" "v" "t" 1
           Samples.compound Samples.component2 Samples.entries2
           "L2HighOrderFESpace" "L2HighOrderFESpace" [] []
           [Samples.zero; Samples.zero] [Samples.zero; Samples.zero]
           [] Samples.others).
  - discriminate.
  - discriminate.
  - discriminate.
  - vm_compute. reflexivity.
  - reflexivity.
  - reflexivity.
  - reflexivity.
  - reflexivity.
  - simpl. lia.
Defined.

End ExtractionFacts.
